(** * MAX17263 fuel-gauge driver (MAX17263.cpp): shallow embedding

    The driver talks to the chip through the Arduino [Wire] object and
    times its polls with [millis]/[delay].  Both are kept abstract in a
    [Board]; a simulated board at the end of the definitions gives
    concrete runs.  Registers are 16-bit values held in [Z] with the
    wrap-around written out; C++ [float] is IEEE 754 binary32 through
    the Standard Library's [SpecFloat]; [double], whose width depends on
    the target, is a parameter.  The two polling loops take fuel, and
    the driver keeps a log of its register transactions so that what a
    call wrote can be stated. *)

From Stdlib Require Import ZArith List Bool Lia QArith Qabs SpecFloat.
Import ListNotations.
Local Open Scope Z_scope.

(** ** Fixed-width integers *)

Definition u16 (z : Z) : Z := z mod 2 ^ 16.
Definition u32 (z : Z) : Z := z mod 2 ^ 32.

(** [(int16_t)v] for a [uint16_t] v. *)
Definition int16_of_u16 (v : Z) : Z := if v <? 0x8000 then v else v - 0x10000.

(** ** Single-precision floats *)

Module F32.

Definition float := spec_float.
Definition prec : Z := 24.
Definition emax : Z := 128.

Definition mul : float -> float -> float := SFmul prec emax.
Definition div : float -> float -> float := SFdiv prec emax.

(** Integer to [float] conversion, round to nearest even. *)
Definition of_int (z : Z) : float := binary_normalize prec emax z 0 false.

(** Magnitude of a finite float with the fraction dropped. *)
Definition trunc_mag (m : positive) (e : Z) : Z :=
  match e with
  | Zneg p => Zpos m / 2 ^ Zpos p
  | _ => Zpos m * 2 ^ e
  end.

(** Truncation toward zero; [None] for NaN and the infinities. *)
Definition trunc (f : float) : option Z :=
  match f with
  | S754_zero _ => Some 0
  | S754_finite s m e => Some (cond_Zopp s (trunc_mag m e))
  | S754_infinity _ | S754_nan => None
  end.

(** Exact value of a float (0 for NaN and the infinities). *)
Definition to_Q (f : float) : Q :=
  match f with
  | S754_finite s m e =>
      match e with
      | Zneg p => Qmake (cond_Zopp s (Zpos m)) (2 ^ p)
      | _ => inject_Z (cond_Zopp s (Zpos m * 2 ^ e))
      end
  | _ => 0%Q
  end.

(** A finite float [(s, m, e)] as the fraction [num s m e / den e]. *)
Definition num (s : bool) (m : positive) (e : Z) : Z :=
  cond_Zopp s (Zpos m * 2 ^ Z.max 0 e).

Definition den (e : Z) : Z := 2 ^ Z.max 0 (- e).

(** The sign bit, where there is one, is clear. *)
Definition sign_clear (f : float) : Prop :=
  match f with
  | S754_zero s | S754_infinity s | S754_finite s _ _ => s = false
  | S754_nan => True
  end.

Definition not_negative_finite (f : float) : Prop :=
  match f with
  | S754_finite true _ _ => False
  | _ => True
  end.

End F32.

Abbreviation float := F32.float.

(** ** What the build target decides

    [double] is 32 bits wide on AVR cores and 64 bits on the others, so
    its arithmetic is a parameter.  The C++ standard leaves a
    float-to-integer conversion undefined when the truncated value does
    not fit the target type; [undefined_uint16] is what the target
    produces there. *)
Record Platform : Type := {
  double : Type;
  double_of_float : float -> double;
  float_of_double : double -> float;
  double_of_int : Z -> double;
  (** [double_lit m e] is the literal m * 10^e. *)
  double_lit : Z -> Z -> double;
  dmul : double -> double -> double;
  ddiv : double -> double -> double;
  dltb : double -> double -> bool;
  undefined_uint16 : float -> Z
}.

(** [(uint16_t)f] *)
Definition float_to_uint16 (P : Platform) (f : float) : Z :=
  match F32.trunc f with
  | Some t => if (0 <=? t) && (t <? 65536) then t else u16 (undefined_uint16 P f)
  | None => u16 (undefined_uint16 P f)
  end.

(** ** The board: the two-wire bus and the millisecond clock *)
Record Board : Type := {
  hw : Type;
  Wire_beginTransmission : Z -> hw -> hw;
  Wire_write : Z -> hw -> hw;
  Wire_endTransmission : bool -> hw -> hw;
  Wire_requestFrom : Z -> Z -> hw -> hw;
  Wire_available : hw -> Z * hw;
  Wire_read : hw -> Z * hw;
  millis : hw -> Z * hw;
  delay : Z -> hw -> hw
}.

(** ** Constants of MAX17263.h *)

(** The register addresses and the bus address, constants that fit the
    [byte] parameters they are passed to.  MAX17263.h, which declares
    them, is not among the sources: they are parameters. *)
Record RegisterMap : Type := {
  I2CAddress : Z;
  regStatus : Z;
  regFStat : Z;
  regDesignCap : Z;
  regIchgTerm : Z;
  regVEmpty : Z;
  regModelCfg : Z;
  regHibCfg : Z;
  regVCell : Z;
  regAvgVCell : Z;
  regCurrent : Z;
  regRepCap : Z;
  regRepSOC : Z;
  regTimeToEmpty : Z;
  regTemp : Z;
  regLedCfg1 : Z;
  regLedCfg2 : Z
}.

(** The fixed scale factors (voltage, state of charge and time per
    LSB), declared in MAX17263.h as well: parameters too. *)
Record Scales : Type := {
  voltage_multiplier_V : float;
  SOC_multiplier : float;
  time_multiplier_Hours : float
}.

(** Modelled from the spec: the data members of class MAX17263, which
    the missing header declares.  Names are those the member functions
    use, types those of the parameters they are passed to and of the
    spec's data model (battery profile, sense resistor, derived
    multipliers as [float], the hibernate snapshot as [uint16_t]). *)
Record MAX17263 : Type := {
  rSense : float;
  designCap_mAh : Z;
  ichgTerm : Z;
  vEmpty : float;
  r100 : bool;
  vChg : bool;
  modelID : Z;
  originalHibernateCFG : Z;
  current_multiplier_mV : float;
  capacity_multiplier_mAH : float
}.

(** A register transaction as the driver saw it. *)
Inductive BusOp : Type :=
| RegWrite (reg value : Z)
| RegRead (reg value : Z).

Definition is_write_to (reg : Z) (op : BusOp) : bool :=
  match op with
  | RegWrite r _ => r =? reg
  | RegRead _ _ => false
  end.

Definition is_write (op : BusOp) : bool :=
  match op with
  | RegWrite _ _ => true
  | RegRead _ _ => false
  end.

(** ** The driver *)
Section Driver.

Variable B : Board.
Variable P : Platform.
Variable R : RegisterMap.
Variable K : Scales.

(** The driver object, the board it runs on, and the transactions made
    so far (oldest first). *)
Record Sys : Type := {
  obj : MAX17263;
  board : hw B;
  log : list BusOp
}.

Definition M (A : Type) : Type := Sys -> A * Sys.

Definition ret {A} (a : A) : M A := fun s => (a, s).

Definition bind {A C} (c : M A) (k : A -> M C) : M C :=
  fun s => let (a, s') := c s in k a s'.

Notation "x <- c ;; k" := (bind c (fun x => k))
  (at level 61, c at next level, right associativity).
Notation "c ;;; k" := (bind c (fun _ => k))
  (at level 61, right associativity).

Definition on_board (f : hw B -> hw B) : M unit :=
  fun s => (tt, {| obj := obj s; board := f (board s); log := log s |}).

Definition ask_board {A} (f : hw B -> A * hw B) : M A :=
  fun s => let (a, h) := f (board s) in
           (a, {| obj := obj s; board := h; log := log s |}).

Definition record (op : BusOp) : M unit :=
  fun s => (tt, {| obj := obj s; board := board s; log := log s ++ [op] |}).

Definition this : M MAX17263 := fun s => (obj s, s).

Definition assign (f : MAX17263 -> MAX17263) : M unit :=
  fun s => (tt, {| obj := f (obj s); board := board s; log := log s |}).

(** *** Register access *)

(** The request half of a read: address the register, then ask for two
    bytes. *)
Definition read_request (reg : Z) (h : hw B) : hw B :=
  Wire_requestFrom B (I2CAddress R) 2
    (Wire_endTransmission B false
       (Wire_write B reg
          (Wire_beginTransmission B (I2CAddress R) h))).

Definition read_reply (h : hw B) : Z * hw B :=
  let (n, h0) := Wire_available B h in
  if 2 <=? n then
    let (b0, h1) := Wire_read B h0 in
    let (b1, h2) := Wire_read B h1 in
    (u16 (Z.lor (u16 b0) (Z.shiftl (u16 b1) 8)), h2)
  else (0, h0).

Definition bus_read (reg : Z) (h : hw B) : Z * hw B :=
  read_reply (read_request reg h).

Definition bus_write (reg value : Z) (h : hw B) : hw B :=
  Wire_endTransmission B true
    (Wire_write B (Z.land (Z.shiftr value 8) 0xFF)
       (Wire_write B (Z.land value 0xFF)
          (Wire_write B reg
             (Wire_beginTransmission B (I2CAddress R) h)))).

Definition readReg16Bit (reg : Z) : M Z :=
  value <- ask_board (bus_read reg) ;;
  record (RegRead reg value) ;;;
  ret value.

(** [value] is a [uint16_t] parameter: an argument is narrowed to 16
    bits by the call, and those are the bits that go out (low byte
    first) and that the transaction records. *)
Definition writeReg16Bit (reg value : Z) : M unit :=
  on_board (bus_write reg value) ;;;
  record (RegWrite reg (u16 value)).

Definition getStatus : M Z := readReg16Bit (regStatus R).

Definition batteryPresent : M bool :=
  status <- getStatus ;;
  ret (Z.land status 0x0008 =? 0).

Definition powerOnResetEvent : M bool :=
  status <- getStatus ;;
  ret (negb (Z.land status 0x0002 =? 0)).

(** *** Telemetry *)

Definition getCurrent : M float :=
  raw <- readReg16Bit (regCurrent R) ;;
  d <- this ;;
  ret (F32.mul (F32.of_int (int16_of_u16 raw)) (current_multiplier_mV d)).

Definition getVcell : M float :=
  vcellRaw <- readReg16Bit (regVCell R) ;;
  ret (F32.mul (F32.of_int vcellRaw) (voltage_multiplier_V K)).

Definition getCapacity_mAh : M float :=
  repCap <- readReg16Bit (regRepCap R) ;;
  d <- this ;;
  ret (F32.mul (F32.of_int repCap) (capacity_multiplier_mAH d)).

Definition getSOC : M float :=
  soc <- readReg16Bit (regRepSOC R) ;;
  ret (F32.mul (F32.of_int soc) (SOC_multiplier K)).

Definition getTimeToEmpty : M float :=
  tte <- readReg16Bit (regTimeToEmpty R) ;;
  if tte =? 0xFFFF then ret (F32.of_int (-1))
  else ret (F32.mul (F32.of_int tte) (time_multiplier_Hours K)).

Definition getTemp : M float :=
  raw <- readReg16Bit (regTemp R) ;;
  ret (float_of_double P
         (ddiv P (double_of_float P (F32.of_int (int16_of_u16 raw)))
                 (double_lit P 2560 (-1)))).

Definition getAvgVCell : M float :=
  avgVcellRaw <- readReg16Bit (regAvgVCell R) ;;
  ret (F32.mul (F32.of_int avgVcellRaw) (voltage_multiplier_V K)).

(** *** Production test *)

Definition voltage_out_of_range (voltage : float) : bool :=
  dltb P (double_of_float P voltage) (double_lit P 25 (-1))
  || dltb P (double_lit P 45 (-1)) (double_of_float P voltage).

Definition productionTest : M unit :=
  status <- getStatus ;;
  modelCfg <- readReg16Bit (regModelCfg R) ;;
  designCapReg <- readReg16Bit (regDesignCap R) ;;
  if status =? 0xFFFF then ret tt
  else
    voltage <- getVcell ;;
    if voltage_out_of_range voltage then ret tt else ret tt.

(** *** Configuration *)

Definition clearPORpowerOnReset : M unit :=
  status <- readReg16Bit (regStatus R) ;;
  writeReg16Bit (regStatus R) (Z.land status 0xFFFD).

Definition set_multipliers (cur cap : float) (d : MAX17263) : MAX17263 :=
  {| rSense := rSense d; designCap_mAh := designCap_mAh d;
     ichgTerm := ichgTerm d; vEmpty := vEmpty d; r100 := r100 d;
     vChg := vChg d; modelID := modelID d;
     originalHibernateCFG := originalHibernateCFG d;
     current_multiplier_mV := cur; capacity_multiplier_mAH := cap |}.

Definition current_per_LSB (r : float) : float :=
  float_of_double P
    (dmul P (ddiv P (double_lit P 15625 (-10)) (double_of_float P r))
            (double_of_int P 1000)).

Definition capacity_per_LSB (r : float) : float :=
  float_of_double P (ddiv P (double_lit P 50 (-7)) (double_of_float P r)).

Definition calcMultipliers (r : float) : M unit :=
  assign (set_multipliers (current_per_LSB r) (capacity_per_LSB r)).

Definition setDesignCap_mAh (c : Z) : M unit :=
  d <- this ;;
  writeReg16Bit (regDesignCap R)
    (float_to_uint16 P (F32.div (F32.of_int c) (capacity_multiplier_mAH d))).

(** [i] is a [uint16_t] parameter; [writeReg16Bit] keeps its low 16
    bits. *)
Definition setIchgTerm (i : Z) : M unit :=
  writeReg16Bit (regIchgTerm R) i.

(** [ve = (ve << 7) | 0x0A] on a [uint16_t]. *)
Definition vempty_pack (ve : Z) : Z := u16 (Z.lor (Z.shiftl ve 7) 0x0A).

Definition setVEmpty (vf : float) : M unit :=
  writeReg16Bit (regVEmpty R)
    (vempty_pack (float_to_uint16 P (F32.mul vf (F32.of_int 100)))).

(** The value [refreshModelCFG] writes, from the value it read.  On
    16 bits [~0x8F00] is [0x70FF]. *)
Definition modelCfg_refreshed (modelCfg : Z) (r100 vChg : bool) (modelID : Z) : Z :=
  let c0 := Z.land modelCfg 0x70FF in
  let c1 := Z.lor c0 (Z.shiftl (Z.land modelID 0x0F) 4) in
  let c2 := if r100 then Z.lor c1 0x2000 else c1 in
  let c3 := if vChg then Z.lor c2 0x0400 else c2 in
  Z.lor c3 0x8000.

Definition refreshModelCFG (r100 vChg : bool) (modelID : Z) : M unit :=
  modelCfg <- readReg16Bit (regModelCfg R) ;;
  writeReg16Bit (regModelCfg R) (modelCfg_refreshed modelCfg r100 vChg modelID).

(** *** Hibernate and LEDs *)

Definition exitHibernate : M unit :=
  writeReg16Bit (regHibCfg R) 0x0000 ;;;
  writeReg16Bit (regStatus R) 0x0000 ;;;
  on_board (delay B 10).

Definition set_originalHibernateCFG (v : Z) (d : MAX17263) : MAX17263 :=
  {| rSense := rSense d; designCap_mAh := designCap_mAh d;
     ichgTerm := ichgTerm d; vEmpty := vEmpty d; r100 := r100 d;
     vChg := vChg d; modelID := modelID d;
     originalHibernateCFG := v;
     current_multiplier_mV := current_multiplier_mV d;
     capacity_multiplier_mAH := capacity_multiplier_mAH d |}.

Definition storeHibernateCFG : M unit :=
  v <- readReg16Bit (regHibCfg R) ;;
  assign (set_originalHibernateCFG v).

Definition restoreHibernateCFG : M unit :=
  d <- this ;;
  writeReg16Bit (regHibCfg R) (originalHibernateCFG d).

Definition setLEDCfg1 : M unit := writeReg16Bit (regLedCfg1 R) 0x0570.

Definition setLEDCfg2 : M unit := writeReg16Bit (regLedCfg2 R) 0x0000.

(** *** The two polls

    Each loop turn costs one unit of fuel; [None] is a loop that is
    still running when the fuel is gone. *)

Fixpoint waitForDNR_loop (timeout : Z) (fuel : nat) (s : Sys)
  : option (bool * Sys) :=
  match fuel with
  | O => None
  | S fuel' =>
      let (now, s0) := ask_board (millis B) s in
      if u32 now <? timeout then
        let (fstat, s1) := readReg16Bit (regFStat R) s0 in
        if Z.land fstat 0x0001 =? 0 then Some (true, s1)
        else waitForDNR_loop timeout fuel' (snd (on_board (delay B 10) s1))
      else Some (false, s0)
  end.

Definition waitForDNRdataNotReady (fuel : nat) (s : Sys)
  : option (bool * Sys) :=
  let (now, s0) := ask_board (millis B) s in
  waitForDNR_loop (u32 (u32 now + 1000)) fuel s0.

Fixpoint waitforModelCFG_loop (timeout : Z) (fuel : nat) (s : Sys)
  : option (bool * Sys) :=
  match fuel with
  | O => None
  | S fuel' =>
      let (now, s0) := ask_board (millis B) s in
      if u32 now <? timeout then
        let (modelCfg, s1) := readReg16Bit (regModelCfg R) s0 in
        if Z.land modelCfg 0x8000 =? 0 then Some (true, s1)
        else waitforModelCFG_loop timeout fuel' (snd (on_board (delay B 10) s1))
      else Some (false, s0)
  end.

Definition waitforModelCFGrefreshReady (fuel : nat) (s : Sys)
  : option (bool * Sys) :=
  let (now, s0) := ask_board (millis B) s in
  waitforModelCFG_loop (u32 (u32 now + 1000)) fuel s0.

(** *** EZ configuration and initialisation *)

Definition write_EZ_parameters : M unit :=
  d <- this ;;
  setDesignCap_mAh (designCap_mAh d) ;;;
  setIchgTerm (ichgTerm d) ;;;
  setVEmpty (vEmpty d) ;;;
  refreshModelCFG (r100 d) (vChg d) (modelID d).

Definition setEZconfig (fuel : nat) (s : Sys) : option (unit * Sys) :=
  match waitForDNRdataNotReady fuel s with
  | None => None
  | Some (_, s1) =>
      match waitforModelCFGrefreshReady fuel (snd (write_EZ_parameters s1)) with
      | None => None
      | Some (_, s2) => Some (tt, s2)
      end
  end.

Definition initialize (fuel : nat) (s : Sys) : option (unit * Sys) :=
  let s1 := snd ((exitHibernate ;;; storeHibernateCFG) s) in
  match waitForDNRdataNotReady fuel s1 with
  | None => None
  | Some (false, s2) => Some (tt, s2)
  | Some (true, s2) =>
      let s3 := snd ((clearPORpowerOnReset ;;;
                      d <- this ;; calcMultipliers (rSense d)) s2) in
      match setEZconfig fuel s3 with
      | None => None
      | Some (_, s4) =>
          Some ((setLEDCfg1 ;;; setLEDCfg2 ;;; restoreHibernateCFG) s4)
      end
  end.

(** *** Vocabulary of the properties *)

(** The transactions a run added to the log. *)
Definition new_ops (before after : Sys) : list BusOp :=
  skipn (length (log before)) (log after).

Definition multipliers (d : MAX17263) : float * float :=
  (current_multiplier_mV d, capacity_multiplier_mAH d).

(** A call of a telemetry accessor or of a setter. *)
Inductive Call : Type :=
| CallGetCurrent | CallGetVcell | CallGetAvgVCell | CallGetCapacity_mAh
| CallGetSOC | CallGetTimeToEmpty | CallGetTemp
| CallSetDesignCap_mAh (c : Z) | CallSetIchgTerm (i : Z)
| CallSetVEmpty (vf : float).

Definition perform (c : Call) (s : Sys) : Sys :=
  match c with
  | CallGetCurrent => snd (getCurrent s)
  | CallGetVcell => snd (getVcell s)
  | CallGetAvgVCell => snd (getAvgVCell s)
  | CallGetCapacity_mAh => snd (getCapacity_mAh s)
  | CallGetSOC => snd (getSOC s)
  | CallGetTimeToEmpty => snd (getTimeToEmpty s)
  | CallGetTemp => snd (getTemp s)
  | CallSetDesignCap_mAh c => snd (setDesignCap_mAh c s)
  | CallSetIchgTerm i => snd (setIchgTerm i s)
  | CallSetVEmpty vf => snd (setVEmpty vf s)
  end.

Definition perform_all (cs : list Call) (s : Sys) : Sys :=
  fold_left (fun acc c => perform c acc) cs s.

(** The value a read of [reg] yields on board state [h]. *)
Definition reg_value (reg : Z) (h : hw B) : Z := fst (bus_read reg h).

(** A bus that returns what was last written: a register holds the
    value of the last write to it, through writes to other registers
    and through delays. *)
Record echo_bus : Prop := {
  echo_same : forall reg v h,
    0 <= v < 65536 -> reg_value reg (bus_write reg v h) = v;
  echo_other : forall reg reg' v h,
    reg <> reg' -> reg_value reg (bus_write reg' v h) = reg_value reg h;
  echo_delay : forall reg d h,
    reg_value reg (delay B d h) = reg_value reg h
}.

(** A clock that only the driver's own [delay] moves: reading it and
    reading a register leave the millisecond count as it is, [delay d]
    adds [d] to it (all on the 32 bits of [millis]). *)
Record steady_clock : Prop := {
  clock_pure : forall h, snd (millis B h) = h;
  clock_read : forall reg h,
    u32 (fst (millis B (snd (bus_read reg h)))) = u32 (fst (millis B h));
  clock_delay : forall d h,
    u32 (fst (millis B (delay B d h))) = u32 (fst (millis B h) + d)
}.

(** The four EZ configuration registers are other registers than HibCfg
    and Status. *)
Definition config_regs_apart : Prop :=
  Forall (fun reg => reg <> regHibCfg R /\ reg <> regStatus R)
         [regDesignCap R; regIchgTerm R; regVEmpty R; regModelCfg R].

(** What the production test finds: a status register reading 0xFFFF. *)
Definition communication_failure (s : Sys) : bool :=
  fst (getStatus s) =? 0xFFFF.

(** The production test reports to its caller: the finding can be told
    from what the call hands back, its return value and the driver
    object. *)
Definition productionTest_reports : Prop :=
  exists decode : unit * MAX17263 -> bool,
    forall s : Sys,
      decode (fst (productionTest s), obj (snd (productionTest s)))
      = communication_failure s.

End Driver.

Arguments obj {B}.
Arguments board {B}.
Arguments log {B}.
Arguments Build_Sys {B}.

(** ** A simulated board

    The chip as a register file behind the bus: a write transaction of
    three bytes stores a register, a one-byte transaction selects the
    register the next request reads.  A board that is not [answering]
    acknowledges nothing and returns no bytes.  The clock advances in
    [delay] only. *)
Module Sim.

Record state : Type := {
  regs : Z -> Z;
  clock : Z;
  pointer : Z;
  tx : list Z;
  rx : list Z
}.

Definition store (reg value : Z) (f : Z -> Z) : Z -> Z :=
  fun r => if r =? reg then value else f r.

Definition beginTransmission (_ : Z) (h : state) : state :=
  {| regs := regs h; clock := clock h; pointer := pointer h;
     tx := []; rx := rx h |}.

Definition write (b : Z) (h : state) : state :=
  {| regs := regs h; clock := clock h; pointer := pointer h;
     tx := tx h ++ [b]; rx := rx h |}.

Definition endTransmission (answering : bool) (_ : bool) (h : state) : state :=
  if answering then
    match tx h with
    | [reg] =>
        {| regs := regs h; clock := clock h; pointer := reg;
           tx := []; rx := rx h |}
    | [reg; lo; hi] =>
        {| regs := store reg (lo + 256 * hi) (regs h); clock := clock h;
           pointer := reg; tx := []; rx := rx h |}
    | _ =>
        {| regs := regs h; clock := clock h; pointer := pointer h;
           tx := []; rx := rx h |}
    end
  else
    {| regs := regs h; clock := clock h; pointer := pointer h;
       tx := []; rx := rx h |}.

Definition requestFrom (answering : bool) (_ : Z) (n : Z) (h : state) : state :=
  let v := regs h (pointer h) in
  {| regs := regs h; clock := clock h; pointer := pointer h; tx := tx h;
     rx := if answering
           then firstn (Z.to_nat n) [v mod 256; (v / 256) mod 256]
           else [] |}.

Definition available (h : state) : Z * state :=
  (Z.of_nat (length (rx h)), h).

Definition read (h : state) : Z * state :=
  match rx h with
  | [] => (-1, h)
  | b :: rest =>
      (b, {| regs := regs h; clock := clock h; pointer := pointer h;
             tx := tx h; rx := rest |})
  end.

Definition now (h : state) : Z * state := (clock h, h).

Definition sleep (ms : Z) (h : state) : state :=
  {| regs := regs h; clock := clock h + ms; pointer := pointer h;
     tx := tx h; rx := rx h |}.

Definition sim_board (answering : bool) : Board :=
  {| hw := state;
     Wire_beginTransmission := beginTransmission;
     Wire_write := write;
     Wire_endTransmission := endTransmission answering;
     Wire_requestFrom := requestFrom answering;
     Wire_available := available;
     Wire_read := read;
     millis := now;
     delay := sleep |}.

(** Doubles of 64 bits. *)
Definition widen (f : float) : spec_float :=
  match f with
  | S754_finite s m e => binary_normalize 53 1024 (cond_Zopp s (Zpos m)) e s
  | _ => f
  end.

Definition narrow (d : spec_float) : float :=
  match d with
  | S754_finite s m e => binary_normalize 24 128 (cond_Zopp s (Zpos m)) e s
  | _ => d
  end.

Definition literal (m e : Z) : spec_float :=
  match e with
  | Zneg p => SFdiv 53 1024 (binary_normalize 53 1024 m 0 false)
                            (binary_normalize 53 1024 (10 ^ Zpos p) 0 false)
  | _ => binary_normalize 53 1024 (m * 10 ^ e) 0 false
  end.

(** What an x86-64 build makes of a conversion out of range: the
    truncated value as a 32-bit integer, of which the cast keeps the low
    16 bits; 0 when it does not fit 32 bits either. *)
Definition wrap (f : float) : Z :=
  match F32.trunc f with
  | Some t => if (- 2 ^ 31 <=? t) && (t <? 2 ^ 31) then t else 0
  | None => 0
  end.

Definition platform : Platform :=
  {| double := spec_float;
     double_of_float := widen;
     float_of_double := narrow;
     double_of_int := fun z => binary_normalize 53 1024 z 0 false;
     double_lit := literal;
     dmul := SFmul 53 1024;
     ddiv := SFdiv 53 1024;
     dltb := SFltb;
     undefined_uint16 := wrap |}.

(** Register addresses of the MAX17263 data sheet. *)
Definition registers : RegisterMap :=
  {| I2CAddress := 54;
     regStatus := 0; regFStat := 61; regDesignCap := 24; regIchgTerm := 30;
     regVEmpty := 58; regModelCfg := 219; regHibCfg := 186; regVCell := 9;
     regAvgVCell := 25; regCurrent := 10; regRepCap := 5; regRepSOC := 6;
     regTimeToEmpty := 17; regTemp := 8; regLedCfg1 := 64; regLedCfg2 := 75 |}.

(** 78.125 uV, 1/256 percent and 5.625 s (in hours) per LSB. *)
Definition scales : Scales :=
  {| voltage_multiplier_V := F32.div (F32.of_int 78125) (F32.of_int 1000000000);
     SOC_multiplier := F32.div (F32.of_int 1) (F32.of_int 256);
     time_multiplier_Hours := F32.div (F32.of_int 15625) (F32.of_int 10000000) |}.

(** A 3000 mAh cell on a 10 mOhm sense resistor, empty at 3.3 V. *)
Definition driver : MAX17263 :=
  {| rSense := F32.div (F32.of_int 1) (F32.of_int 100);
     designCap_mAh := 3000;
     ichgTerm := 640;
     vEmpty := F32.div (F32.of_int 33) (F32.of_int 10);
     r100 := false; vChg := true; modelID := 0;
     originalHibernateCFG := 0;
     current_multiplier_mV := S754_zero false;
     capacity_multiplier_mAH := S754_zero false |}.

(** The register file at power-up: every register reads [fill] except
    those listed. *)
Fixpoint file (fill : Z) (l : list (Z * Z)) : Z -> Z :=
  match l with
  | [] => fun _ => fill
  | (reg, value) :: rest => store reg value (file fill rest)
  end.

Definition power_up (answering : bool) (fill : Z) (l : list (Z * Z)) (t : Z)
  : Sys (sim_board answering) :=
  @Build_Sys (sim_board answering) driver
    {| regs := file fill l; clock := t; pointer := 0; tx := []; rx := [] |}
    [].

End Sim.

(** ** Reading the VEmpty register back *)



(** ** Vocabulary of the further properties *)

Section Queries.

Variable B : Board.
Variable P : Platform.
Variable R : RegisterMap.
Variable K : Scales.

(** A call that reads the chip and hands a value back. *)
Inductive Query : Type :=
| AskStatus | AskBatteryPresent | AskPowerOnResetEvent
| AskCurrent | AskVcell | AskAvgVCell | AskCapacity_mAh | AskSOC
| AskTimeToEmpty | AskTemp.

Definition ask (q : Query) (s : Sys B) : Sys B :=
  match q with
  | AskStatus => snd (getStatus B R s)
  | AskBatteryPresent => snd (batteryPresent B R s)
  | AskPowerOnResetEvent => snd (powerOnResetEvent B R s)
  | AskCurrent => snd (getCurrent B R s)
  | AskVcell => snd (getVcell B R K s)
  | AskAvgVCell => snd (getAvgVCell B R K s)
  | AskCapacity_mAh => snd (getCapacity_mAh B R s)
  | AskSOC => snd (getSOC B R K s)
  | AskTimeToEmpty => snd (getTimeToEmpty B R K s)
  | AskTemp => snd (getTemp B P R s)
  end.

(** The register each of them reads. *)
Definition asked_register (q : Query) : Z :=
  match q with
  | AskStatus | AskBatteryPresent | AskPowerOnResetEvent => regStatus R
  | AskCurrent => regCurrent R
  | AskVcell => regVCell R
  | AskAvgVCell => regAvgVCell R
  | AskCapacity_mAh => regRepCap R
  | AskSOC => regRepSOC R
  | AskTimeToEmpty => regTimeToEmpty R
  | AskTemp => regTemp R
  end.

(** A turn of a poll: a read of [reg] that found the bits of [mask]
    clear ([ready]) or not. *)
Definition polled (reg mask : Z) (ready : bool) (op : BusOp) : Prop :=
  exists v, op = RegRead reg v /\ (Z.land v mask =? 0) = ready.

End Queries.

Arguments polled reg mask ready op : clear implicits.

(** A finite float above zero. *)
Definition positive_finite (f : float) : Prop :=
  match f with
  | S754_finite false _ _ => True
  | _ => False
  end.




(** The sign bit of a float; NaN has none here. *)
Definition sign_of (f : float) : option bool :=
  match f with
  | S754_zero s | S754_infinity s | S754_finite s _ _ => Some s
  | S754_nan => None
  end.

(** ** Vocabulary of rounding *)

(** Where a remainder [r] of a division by [D] lies. *)
Definition loc_of (r D : Z) : location :=
  if r =? 0 then loc_Exact else loc_Inexact (2 * r ?= D).

(** [N / D] rounded to the nearest integer, ties to even. *)
Definition rne (N D : Z) : Z :=
  round_nearest_even (N / D) (loc_of (N mod D) D).

(** [m] and [l] are the integer part of [N / D] and the place of the
    rest. *)
Definition inbetween (m : Z) (l : location) (N D : Z) : Prop :=
  0 < D /\ 0 <= N /\ m = N / D /\ l = loc_of (N mod D) D.

(** The place of a non-negative float in its format, counted from
    zero: exponent steps of 2^(prec-1), then the mantissa. *)
Definition rank_of (prec emax E I : Z) : Z :=
  (E - emin prec emax) * 2 ^ (prec - 1) + I.

Definition top_rank (prec emax : Z) : Z :=
  (emax - prec - emin prec emax + 2) * 2 ^ (prec - 1).

(** [f] is a non-negative float in canonical form, at place [rho];
    +infinity stands at [top_rank] and beyond. *)
Definition ranked (prec emax : Z) (f : spec_float) (rho : Z) : Prop :=
  match f with
  | S754_zero false => rho = 0
  | S754_finite false m e =>
      emin prec emax <= e <= emax - prec /\
      Zpos m < 2 ^ prec /\
      (e = emin prec emax \/ 2 ^ (prec - 1) <= Zpos m) /\
      rho = rank_of prec emax e (Zpos m)
  | S754_infinity false => top_rank prec emax <= rho
  | _ => False
  end.

(** One non-negative canonical float is at most another. *)
Definition fle (prec emax : Z) (f1 f2 : spec_float) : Prop :=
  exists rho1 rho2,
    ranked prec emax f1 rho1 /\ ranked prec emax f2 rho2 /\ rho1 <= rho2.

(** m1 * 2^e1 <= m2 * 2^e2, on integers. *)
Definition vle (m1 e1 m2 e2 : Z) : Prop :=
  exists t, t <= e1 /\ t <= e2 /\ m1 * 2 ^ (e1 - t) <= m2 * 2 ^ (e2 - t).

(** A float taken into the binary format of [prec] bits and largest
    exponent [emax], rounding to nearest even. *)
Definition convert (prec emax : Z) (f : spec_float) : spec_float :=
  match f with
  | S754_finite s m e => binary_normalize prec emax (cond_Zopp s (Zpos m)) e s
  | _ => f
  end.

(** A build target whose [double] is the IEEE binary format of [prec]
    bits: binary32 ([24], [128]) on AVR cores, binary64 ([53], [1024])
    elsewhere.  [Sim.platform] is the second. *)
Definition ieee_double (prec emax : Z) : Platform :=
  {| double := spec_float;
     double_of_float := convert prec emax;
     float_of_double := convert 24 128;
     double_of_int := fun z => binary_normalize prec emax z 0 false;
     double_lit := fun m e =>
       match e with
       | Zneg p => SFdiv prec emax (binary_normalize prec emax m 0 false)
                     (binary_normalize prec emax (10 ^ Zpos p) 0 false)
       | _ => binary_normalize prec emax (m * 10 ^ e) 0 false
       end;
     dmul := SFmul prec emax;
     ddiv := SFdiv prec emax;
     dltb := SFltb;
     undefined_uint16 := Sim.wrap |}.

(** The two widths of [double]. *)
Definition double_format (prec emax : Z) : Prop :=
  (prec = 24 /\ emax = 128) \/ (prec = 53 /\ emax = 1024).

(** * Properties *)

(** ** Words and bits *)

Lemma u16_range (z : Z) : 0 <= u16 z < 65536.
Proof. unfold u16. apply Z.mod_pos_bound. lia. Qed.

Lemma u16_word (z : Z) : 0 <= z < 65536 -> u16 z = z.
Proof. intros Hz. unfold u16. apply Z.mod_small. lia. Qed.


Lemma lor_low_high (k a b : Z) :
  0 <= k -> 0 <= a < 2 ^ k -> Z.lor a (Z.shiftl b k) = a + 2 ^ k * b.
Proof.
  intros Hk Ha.
  rewrite Z.shiftl_mul_pow2 by lia.
  rewrite (Z.mul_comm (2 ^ k) b).
  rewrite <- (Z.add_lor_land a (b * 2 ^ k)).
  enough (E : Z.land a (b * 2 ^ k) = 0) by (rewrite E; lia).
  apply Z.bits_inj'. intros n Hn.
  rewrite Z.land_spec, Z.bits_0.
  destruct (Z.ltb_spec n k) as [Hlt | Hge].
  - rewrite (Z.mul_pow2_bits_low b k n) by lia.
    apply andb_false_r.
  - replace a with (a mod 2 ^ k) by (apply Z.mod_small; lia).
    rewrite Z.mod_pow2_bits_high by lia. reflexivity.
Qed.

Lemma land_255 (v : Z) : Z.land v 255 = v mod 256.
Proof. change 255 with (Z.ones 8). rewrite Z.land_ones by lia. reflexivity. Qed.

Lemma word_of_bytes (v : Z) :
  0 <= v < 65536 ->
  u16 (Z.lor (u16 (v mod 256)) (Z.shiftl (u16 ((v / 256) mod 256)) 8)) = v.
Proof.
  intros Hv. unfold u16.
  assert (H0 : 0 <= v mod 256 < 256) by (apply Z.mod_pos_bound; lia).
  assert (H1 : 0 <= (v / 256) mod 256 < 256) by (apply Z.mod_pos_bound; lia).
  rewrite (Z.mod_small (v mod 256)) by lia.
  rewrite (Z.mod_small ((v / 256) mod 256)) by lia.
  rewrite lor_low_high by (change (2 ^ 8) with 256; lia).
  change (2 ^ 8) with 256.
  assert (Hq : 0 <= v / 256 < 256)
    by (split; [apply Z.div_pos; lia | apply Z.div_lt_upper_bound; lia]).
  rewrite (Z.mod_small (v / 256)) by lia.
  pose proof (Z.div_mod v 256 ltac:(lia)) as Hdm.
  rewrite Z.mod_small; lia.
Qed.

Lemma skipn_length_app {A} (l l' : list A) : skipn (length l) (l ++ l') = l'.
Proof. induction l as [| a l IH]; simpl; auto. Qed.

(** ** Single-precision rounding *)

Lemma digits2_pos_bounds (p : positive) :
  2 ^ (Zpos (digits2_pos p) - 1) <= Zpos p < 2 ^ Zpos (digits2_pos p).
Proof.
  induction p as [p IH | p IH |]; cbn [digits2_pos].
  - rewrite Pos2Z.inj_succ.
    replace (Z.succ (Zpos (digits2_pos p)) - 1) with (Z.succ (Zpos (digits2_pos p) - 1)) by lia.
    rewrite !Z.pow_succ_r by lia. lia.
  - rewrite Pos2Z.inj_succ.
    replace (Z.succ (Zpos (digits2_pos p)) - 1) with (Z.succ (Zpos (digits2_pos p) - 1)) by lia.
    rewrite !Z.pow_succ_r by lia. lia.
  - simpl. lia.
Qed.

Lemma shr_1_m (mrs : shr_record) :
  0 <= shr_m mrs -> shr_m (shr_1 mrs) = shr_m mrs / 2.
Proof.
  destruct mrs as [m r s]. cbn [shr_m]. intros Hm.
  destruct m as [| [p | p |] | p]; cbn [shr_1 shr_m].
  - reflexivity.
  - apply Z.div_unique with (r := 1); lia.
  - apply Z.div_unique with (r := 0); lia.
  - reflexivity.
  - lia.
Qed.

Lemma iter_pos_shr_m (p : positive) :
  forall mrs, 0 <= shr_m mrs ->
    shr_m (iter_pos shr_1 p mrs) = shr_m mrs / 2 ^ Zpos p.
Proof.
  induction p as [p IH | p IH |]; intros mrs Hm; cbn [iter_pos].
  - assert (H1 : 0 <= shr_m (shr_1 mrs)) by (rewrite shr_1_m by lia; apply Z.div_pos; lia).
    assert (H2 : 0 <= shr_m (iter_pos shr_1 p (shr_1 mrs)))
      by (rewrite IH by lia; apply Z.div_pos; lia).
    rewrite IH, IH, shr_1_m by lia.
    rewrite !Z.div_div by lia.
    f_equal.
    replace (Zpos p~1) with (1 + Zpos p + Zpos p) by lia.
    rewrite !Z.pow_add_r by lia. lia.
  - assert (H2 : 0 <= shr_m (iter_pos shr_1 p mrs))
      by (rewrite IH by lia; apply Z.div_pos; lia).
    rewrite IH, IH by lia.
    rewrite !Z.div_div by lia.
    f_equal.
    replace (Zpos p~0) with (Zpos p + Zpos p) by lia.
    rewrite !Z.pow_add_r by lia. lia.
  - rewrite shr_1_m by lia. reflexivity.
Qed.

Lemma fexp32 (x : Z) : fexp 24 128 x = Z.max (x - 24) (-149).
Proof. reflexivity. Qed.

Lemma shr_m_of_loc (m : Z) (l : location) : shr_m (shr_record_of_loc m l) = m.
Proof. destruct l as [| []]; reflexivity. Qed.

Lemma shr_fexp_spec (m e : Z) (l : location) :
  0 <= m ->
  snd (shr_fexp 24 128 m e l) = Z.max e (fexp 24 128 (Zdigits2 m + e)) /\
  shr_m (fst (shr_fexp 24 128 m e l))
  = m / 2 ^ (snd (shr_fexp 24 128 m e l) - e) /\
  (snd (shr_fexp 24 128 m e l) = e ->
   fst (shr_fexp 24 128 m e l) = shr_record_of_loc m l).
Proof.
  intros Hm. unfold shr_fexp, shr.
  destruct (fexp 24 128 (Zdigits2 m + e) - e) as [| p | p] eqn:Ek; cbn [fst snd].
  - replace (e - e) with 0 by lia.
    rewrite shr_m_of_loc, Z.div_1_r. repeat split; auto; lia.
  - replace (e + Zpos p - e) with (Zpos p) by lia.
    rewrite iter_pos_shr_m by (rewrite shr_m_of_loc; lia).
    rewrite shr_m_of_loc. repeat split; auto; intros; lia.
  - replace (e - e) with 0 by lia.
    rewrite shr_m_of_loc, Z.div_1_r. repeat split; auto; lia.
Qed.

Lemma round_nearest_even_near (m : Z) (l : location) :
  m <= round_nearest_even m l <= m + 1.
Proof.
  destruct l as [| []]; cbn [round_nearest_even]; try lia.
  destruct (Z.even m); lia.
Qed.

Lemma div_pow2_big (m d n : Z) :
  0 < n -> n <= d -> 2 ^ (d - 1) <= m -> 2 ^ (n - 1) <= m / 2 ^ (d - n).
Proof.
  intros Hn Hd Hm.
  apply Z.div_le_lower_bound.
  - apply Z.pow_pos_nonneg; lia.
  - rewrite <- Z.pow_add_r by lia.
    replace (d - n + (n - 1)) with (d - 1) by lia. exact Hm.
Qed.

Lemma Zdigits2_bounds (m : Z) :
  0 < m -> 2 ^ (Zdigits2 m - 1) <= m.
Proof.
  destruct m as [| p | p]; try lia. intros _.
  apply (digits2_pos_bounds p).
Qed.

Lemma binary_round_aux_exact (s : bool) (M : positive) (e : Z) :
  match binary_round_aux 24 128 s (Zpos M) e loc_Exact with
  | S754_zero s' => s' = s /\ e < -149 /\ Zpos M < 2 ^ (-149 - e)
  | S754_infinity s' => s' = s
  | S754_nan => False
  | S754_finite s' m' e' =>
      s' = s /\ e <= e' /\
      Zpos M / 2 ^ (e' - e) <= Zpos m' <= Zpos M / 2 ^ (e' - e) + 1 /\
      (e' = e -> m' = M) /\
      (e' = e \/ e' = -149 \/ 2 ^ 23 <= Zpos m')
  end.
Proof.
  unfold binary_round_aux.
  destruct (shr_fexp_spec (Zpos M) e loc_Exact ltac:(lia)) as [He1 [Hq Hsame1]].
  destruct (shr_fexp 24 128 (Zpos M) e loc_Exact) as [mrs1 e1].
  cbn [fst snd] in He1, Hq, Hsame1.
  set (m1 := round_nearest_even (shr_m mrs1) (loc_of_shr_record mrs1)).
  pose proof (round_nearest_even_near (shr_m mrs1) (loc_of_shr_record mrs1)) as Hm1.
  fold m1 in Hm1.
  assert (Hq0 : 0 <= shr_m mrs1)
    by (rewrite Hq; apply Z.div_pos; [lia | apply Z.pow_pos_nonneg; lia]).
  destruct (shr_fexp_spec m1 e1 loc_Exact ltac:(lia)) as [He2 [Hm2 Hsame2]].
  destruct (shr_fexp 24 128 m1 e1 loc_Exact) as [mrs2 e2].
  cbn [fst snd] in He2, Hm2, Hsame2.
  rewrite fexp32 in He1, He2.
  cbn [Zdigits2] in He1.
  pose proof (digits2_pos_bounds M) as [HdM _].
  set (dM := Zpos (digits2_pos M)) in *.
  (* exactness when nothing is shifted *)
  assert (Hexact : e1 = e -> m1 = Zpos M).
  { intros E. unfold m1. rewrite (Hsame1 ltac:(lia)). reflexivity. }
  (* the first shift leaves a full mantissa, unless it stops at emin *)
  assert (Hfull1 : e1 = e \/ e1 = -149 \/ 2 ^ 23 <= shr_m mrs1).
  { destruct (Z.eq_dec e1 e) as [| Hne]; [auto |].
    destruct (Z.eq_dec e1 (-149)) as [| Hne']; [auto |].
    right; right. rewrite Hq.
    replace (e1 - e) with (dM - 24) by lia.
    change (2 ^ 23) with (2 ^ (24 - 1)).
    apply (div_pow2_big (Zpos M) dM 24); [lia | lia | exact HdM]. }
  assert (He1min : -149 <= e1) by lia.
  (* the second shift *)
  assert (Hfull2 : e2 = e1 \/ 2 ^ 23 <= shr_m mrs2).
  { destruct (Z.eq_dec e2 e1) as [| Hne]; [auto |]. right.
    assert (Hpos : 0 < m1).
    { destruct (Z.eq_dec m1 0) as [E0 | ]; [| lia].
      rewrite E0 in He2. cbn [Zdigits2] in He2. lia. }
    pose proof (Zdigits2_bounds m1 Hpos) as Hd1.
    rewrite Hm2.
    replace (e2 - e1) with (Zdigits2 m1 - 24) by lia.
    change (2 ^ 23) with (2 ^ (24 - 1)).
    apply (div_pow2_big m1 (Zdigits2 m1) 24); [lia | lia | exact Hd1]. }
  assert (Hsame2' : e2 = e1 -> shr_m mrs2 = m1).
  { intros E. rewrite Hm2. replace (e2 - e1) with 0 by lia. apply Z.div_1_r. }
  assert (Hle : e <= e1 <= e2) by lia.
  assert (HF : Zpos M / 2 ^ (e2 - e) <= shr_m mrs2 <= Zpos M / 2 ^ (e2 - e) + 1).
  { replace (e2 - e) with ((e1 - e) + (e2 - e1)) by lia.
    rewrite Z.pow_add_r by lia.
    assert (P1 : 0 < 2 ^ (e1 - e)) by (apply Z.pow_pos_nonneg; lia).
    assert (P2 : 0 < 2 ^ (e2 - e1)) by (apply Z.pow_pos_nonneg; lia).
    rewrite <- Z.div_div by lia. rewrite <- Hq, Hm2. split.
    - apply Z.div_le_mono; lia.
    - rewrite <- (Z.div_add (shr_m mrs1) 1 (2 ^ (e2 - e1))) by lia.
      apply Z.div_le_mono; lia. }
  destruct (shr_m mrs2) as [| m2 | m2] eqn:Em2.
  - (* zero *)
    split; [reflexivity |].
    assert (E21 : e2 = e1) by (destruct Hfull2 as [| H]; [assumption | exfalso; assert (0 < 2 ^ 23) by (apply Z.pow_pos_nonneg; lia); lia]).
    assert (Em1 : m1 = 0) by (rewrite <- (Hsame2' E21); reflexivity).
    assert (Hne : e1 <> e) by (intros E; specialize (Hexact E); lia).
    assert (E1 : e1 = -149).
    { destruct Hfull1 as [| [| H]]; [contradiction | assumption |].
      exfalso. assert (0 < 2 ^ 23) by (apply Z.pow_pos_nonneg; lia). lia. }
    split; [lia |].
    assert (Hq00 : Zpos M / 2 ^ (e1 - e) = 0) by lia.
    apply Z.div_small_iff in Hq00; [| apply Z.pow_nonzero; lia].
    replace (-149 - e) with (e1 - e) by lia.
    assert (0 < 2 ^ (e1 - e)) by (apply Z.pow_pos_nonneg; lia). lia.
  - destruct (e2 <=? 128 - 24); [| reflexivity].
    split; [reflexivity |]. split; [lia |]. split; [exact HF |]. split.
    + intros E. assert (E1 : e1 = e) by lia.
      specialize (Hexact E1). specialize (Hsame2' ltac:(lia)). congruence.
    + destruct Hfull2 as [E21 | H]; [| auto].
      specialize (Hsame2' E21).
      destruct Hfull1 as [E1 | [E1 | H]]; [left; lia | right; left; lia |].
      right; right. lia.
  - pose proof (Z.div_pos (Zpos M) (2 ^ (e2 - e)) ltac:(lia)
                  ltac:(apply Z.pow_pos_nonneg; lia)). lia.
Qed.







Lemma binary_round_aux_sign (s : bool) (m e : Z) (l : location) :
  match binary_round_aux 24 128 s m e l with
  | S754_zero s' | S754_infinity s' | S754_finite s' _ _ => s' = s
  | S754_nan => True
  end.
Proof.
  unfold binary_round_aux.
  destruct (shr_fexp 24 128 m e l) as [mrs1 e1].
  destruct (shr_fexp 24 128 _ e1 loc_Exact) as [mrs2 e2].
  destruct (shr_m mrs2); [reflexivity | | exact I].
  destruct (e2 <=? 128 - 24); reflexivity.
Qed.

Lemma of_int_sign (z : Z) : 0 <= z -> F32.sign_clear (F32.of_int z).
Proof.
  intros Hz. unfold F32.of_int, binary_normalize.
  destruct z as [| p | p]; [reflexivity | | lia].
  unfold binary_round.
  destruct (shl_align p 0 _) as [mz ez].
  pose proof (binary_round_aux_sign false (Zpos mz) ez loc_Exact) as H.
  unfold F32.prec, F32.emax.
  destruct (binary_round_aux 24 128 false (Zpos mz) ez loc_Exact); exact H.
Qed.

Lemma mul_not_negative (x tm : spec_float) :
  F32.sign_clear x ->
  SFltb tm (S754_zero false) = false ->
  F32.not_negative_finite (F32.mul x tm).
Proof.
  intros Hx Htm. unfold F32.mul, F32.prec, F32.emax.
  destruct x as [sx | sx | | sx mx ex], tm as [sy | sy | | sy my ey];
    cbn [SFmul F32.not_negative_finite F32.sign_clear] in *; try exact I.
  subst sx.
  assert (sy = false) by (destruct sy; [discriminate Htm | reflexivity]).
  subst sy. cbn [xorb].
  pose proof (binary_round_aux_sign false (Zpos (mx * my)) (ex + ey) loc_Exact) as H.
  destruct (binary_round_aux 24 128 false (Zpos (mx * my)) (ex + ey) loc_Exact);
    try exact I.
  subst. exact I.
Qed.

Lemma not_negative_finite_differs (r : spec_float) :
  F32.not_negative_finite r ->
  r <> F32.of_int (-1) /\ SFeqb r (F32.of_int (-1)) = false.
Proof.
  change (F32.of_int (-1)) with (S754_finite true 8388608 (-23)).
  destruct r as [[|] | [|] | | [|] m e]; cbn [F32.not_negative_finite];
    intros H; try contradiction; split; try discriminate; reflexivity.
Qed.

Lemma small_index (i : Z) :
  0 <= i < 16 ->
  i = 0 \/ i = 1 \/ i = 2 \/ i = 3 \/ i = 4 \/ i = 5 \/ i = 6 \/ i = 7 \/
  i = 8 \/ i = 9 \/ i = 10 \/ i = 11 \/ i = 12 \/ i = 13 \/ i = 14 \/ i = 15.
Proof. lia. Qed.

Lemma testbit_above (v n i : Z) :
  0 <= n -> 0 <= v < 2 ^ n -> n <= i -> Z.testbit v i = false.
Proof.
  intros Hn Hv Hi.
  replace v with (v mod 2 ^ n) by (apply Z.mod_small; lia).
  apply Z.mod_pow2_bits_high. lia.
Qed.

Lemma modelCfg_refreshed_testbit (prior : Z) (r100 vChg : bool) (modelID i : Z) :
  Z.testbit (modelCfg_refreshed prior r100 vChg modelID) i =
  ((Z.testbit prior i && Z.testbit 28927 i
    || Z.testbit (Z.shiftl (Z.land modelID 15) 4) i
    || (r100 && Z.testbit 8192 i)
    || (vChg && Z.testbit 1024 i))
   || Z.testbit 32768 i)%bool.
Proof.
  unfold modelCfg_refreshed.
  destruct r100, vChg;
    rewrite ?Z.lor_spec, ?Z.land_spec; simpl;
    rewrite ?orb_false_r; reflexivity.
Qed.

Lemma nibble_testbit (modelID i : Z) :
  0 <= i ->
  Z.testbit (Z.shiftl (Z.land modelID 15) 4) i =
  ((4 <=? i) && (i <? 8) && Z.testbit modelID (i - 4))%bool.
Proof.
  intros Hi.
  rewrite Z.shiftl_spec by lia.
  destruct (Z.leb_spec 4 i) as [H4 | H4].
  - rewrite Z.land_spec. change 15 with (Z.ones 4).
    destruct (Z.ltb_spec i 8) as [H8 | H8].
    + rewrite Z.ones_spec_low by lia. rewrite andb_true_r. reflexivity.
    + rewrite Z.ones_spec_high by lia. rewrite andb_false_r. reflexivity.
  - apply Z.testbit_neg_r. lia.
Qed.

Lemma word_by_bits (w : Z) :
  0 <= w -> (forall i, 16 <= i -> Z.testbit w i = false) -> w < 2 ^ 16.
Proof.
  intros Hw Hhigh.
  replace w with (w mod 2 ^ 16); [apply Z.mod_pos_bound; lia |].
  apply Z.bits_inj'. intros i Hi.
  destruct (Z.ltb_spec i 16) as [Hlt | Hge].
  - apply Z.mod_pow2_bits_low. lia.
  - rewrite Z.mod_pow2_bits_high by lia. symmetry. apply Hhigh. exact Hge.
Qed.

Lemma modelCfg_refreshed_range (w : Z) (r100 vChg : bool) (modelID : Z) :
  0 <= w < 65536 ->
  0x8000 <= modelCfg_refreshed w r100 vChg modelID < 0x10000.
Proof.
  intros Hw.
  assert (Hnn : 0 <= modelCfg_refreshed w r100 vChg modelID).
  { unfold modelCfg_refreshed.
    assert (H0 : 0 <= Z.land w 28927) by (apply Z.land_nonneg; lia).
    assert (H1 : 0 <= Z.shiftl (Z.land modelID 15) 4)
      by (apply Z.shiftl_nonneg, Z.land_nonneg; lia).
    destruct r100, vChg; repeat (apply Z.lor_nonneg; split); lia. }
  split.
  - destruct (Z.lt_ge_cases (modelCfg_refreshed w r100 vChg modelID) (2 ^ 15))
      as [Hlt | Hge]; [| exact Hge].
    assert (Hb : Z.testbit (modelCfg_refreshed w r100 vChg modelID) 15 = false)
      by (apply (testbit_above _ 15); lia).
    rewrite modelCfg_refreshed_testbit in Hb.
    change (Z.testbit 32768 15) with true in Hb.
    rewrite orb_true_r in Hb. discriminate Hb.
  - apply word_by_bits; [exact Hnn |].
    intros i Hi. rewrite modelCfg_refreshed_testbit, nibble_testbit by lia.
    rewrite (testbit_above w 16 i) by lia.
    rewrite (testbit_above 8192 16 i), (testbit_above 1024 16 i),
      (testbit_above 32768 16 i) by lia.
    replace (i <? 8) with false by (symmetry; apply Z.ltb_ge; lia).
    rewrite !andb_false_r. reflexivity.
Qed.

Lemma modelCfg_refreshed_word (w : Z) (r100 vChg : bool) (modelID : Z) :
  0 <= w < 65536 -> 0 <= modelCfg_refreshed w r100 vChg modelID < 65536.
Proof.
  intros Hw. pose proof (modelCfg_refreshed_range w r100 vChg modelID Hw). lia.
Qed.

Lemma land_word (a m : Z) : 0 <= a < 65536 -> 0 <= Z.land a m < 65536.
Proof.
  intros Ha.
  assert (H0 : 0 <= Z.land a m) by (apply Z.land_nonneg; lia).
  split; [exact H0 |].
  apply word_by_bits; [exact H0 |].
  intros i Hi. rewrite Z.land_spec, (testbit_above a 16 i) by lia. reflexivity.
Qed.


(** The bytes [writeReg16Bit] sends are those of the narrowed value. *)
Lemma low_byte_u16 (v : Z) : Z.land (u16 v) 0xFF = Z.land v 0xFF.
Proof.
  apply Z.bits_inj'. intros i Hi. rewrite !Z.land_spec. unfold u16.
  destruct (Z.ltb_spec i 16) as [Hlt | Hge].
  - rewrite Z.mod_pow2_bits_low by lia. reflexivity.
  - rewrite (testbit_above 255 16 i) by lia. rewrite !andb_false_r. reflexivity.
Qed.

Lemma high_byte_u16 (v : Z) :
  Z.land (Z.shiftr (u16 v) 8) 0xFF = Z.land (Z.shiftr v 8) 0xFF.
Proof.
  apply Z.bits_inj'. intros i Hi. rewrite !Z.land_spec, !Z.shiftr_spec by lia.
  unfold u16.
  destruct (Z.ltb_spec i 8) as [Hlt | Hge].
  - rewrite Z.mod_pow2_bits_low by lia. reflexivity.
  - rewrite (testbit_above 255 8 i) by lia. rewrite !andb_false_r. reflexivity.
Qed.

Lemma bus_write_u16 (B : Board) (R : RegisterMap) (reg value : Z) (h : hw B) :
  bus_write B R reg (u16 value) h = bus_write B R reg value h.
Proof. unfold bus_write. rewrite low_byte_u16, high_byte_u16. reflexivity. Qed.

Section DriverFacts.

Variable B : Board.
Variable P : Platform.
Variable R : RegisterMap.
Variable K : Scales.

(** ** Equations of the register primitives *)

Lemma readReg16Bit_eq (reg : Z) (s : Sys B) :
  readReg16Bit B R reg s =
  (reg_value B R reg (board s),
   {| obj := obj s; board := snd (bus_read B R reg (board s));
      log := log s ++ [RegRead reg (reg_value B R reg (board s))] |}).
Proof.
  unfold readReg16Bit, bind, ask_board, record, ret, reg_value.
  destruct (bus_read B R reg (board s)) as [v h]. reflexivity.
Qed.

Lemma writeReg16Bit_eq (reg value : Z) (s : Sys B) :
  writeReg16Bit B R reg value s =
  (tt, {| obj := obj s; board := bus_write B R reg value (board s);
          log := log s ++ [RegWrite reg (u16 value)] |}).
Proof. reflexivity. Qed.

Lemma reg_value_range (reg : Z) (h : hw B) : 0 <= reg_value B R reg h < 65536.
Proof.
  unfold reg_value, bus_read, read_reply.
  destruct (Wire_available B (read_request B R reg h)) as [n h0].
  destruct (2 <=? n).
  - destruct (Wire_read B h0) as [b0 h1]. destruct (Wire_read B h1) as [b1 h2].
    apply u16_range.
  - simpl. lia.
Qed.

Lemma new_ops_app (s s' : Sys B) (l : list BusOp) :
  log s' = log s ++ l -> new_ops B s s' = l.
Proof. intros E. unfold new_ops. rewrite E. apply skipn_length_app. Qed.

(** ** The polls read and wait, nothing else *)

Lemma waitForDNR_loop_frame (fuel : nat) :
  forall timeout (s s' : Sys B) b,
    waitForDNR_loop B R timeout fuel s = Some (b, s') ->
    obj s' = obj s /\
    exists l, log s' = log s ++ l /\ filter is_write l = [].
Proof.
  induction fuel as [| fuel IH]; intros timeout s s' b; simpl.
  - discriminate.
  - unfold ask_board.
    destruct (millis B (board s)) as [now h0].
    destruct (u32 now <? timeout).
    + rewrite readReg16Bit_eq.
      destruct (Z.land _ 1 =? 0).
      * intros E. inversion E; subst; clear E. simpl. split; [reflexivity|].
        eexists. split; [reflexivity | reflexivity].
      * intros E. apply IH in E. simpl in E. destruct E as [Ho [l [Hl Hw]]].
        split; [exact Ho|].
        exists (RegRead (regFStat R) (reg_value B R (regFStat R) h0) :: l).
        split; [rewrite Hl, <- app_assoc; reflexivity | exact Hw].
    + intros E. inversion E; subst; clear E. simpl. split; [reflexivity|].
      exists []. rewrite app_nil_r. split; reflexivity.
Qed.

Lemma waitForDNRdataNotReady_frame (fuel : nat) (s s' : Sys B) (b : bool) :
  waitForDNRdataNotReady B R fuel s = Some (b, s') ->
  obj s' = obj s /\
  exists l, log s' = log s ++ l /\ filter is_write l = [].
Proof.
  unfold waitForDNRdataNotReady, ask_board.
  destruct (millis B (board s)) as [now h0].
  intros E. apply waitForDNR_loop_frame in E. exact E.
Qed.



(** ** The start of [initialize] *)

Lemma exitHibernate_eq (s : Sys B) :
  exitHibernate B R s =
  (tt, {| obj := obj s;
          board := delay B 10
                     (bus_write B R (regStatus R) 0
                        (bus_write B R (regHibCfg R) 0 (board s)));
          log := log s ++ [RegWrite (regHibCfg R) 0; RegWrite (regStatus R) 0] |}).
Proof.
  unfold exitHibernate, bind, on_board. rewrite !writeReg16Bit_eq. simpl.
  rewrite <- app_assoc. reflexivity.
Qed.

Lemma storeHibernateCFG_eq (s : Sys B) :
  storeHibernateCFG B R s =
  (tt, {| obj := set_originalHibernateCFG
                   (reg_value B R (regHibCfg R) (board s)) (obj s);
          board := snd (bus_read B R (regHibCfg R) (board s));
          log := log s ++ [RegRead (regHibCfg R)
                             (reg_value B R (regHibCfg R) (board s))] |}).
Proof.
  unfold storeHibernateCFG, bind, assign. rewrite readReg16Bit_eq. reflexivity.
Qed.

Lemma wake_and_store (s : Sys B) :
  snd ((bind B (exitHibernate B R) (fun _ => storeHibernateCFG B R)) s)
  = snd (storeHibernateCFG B R (snd (exitHibernate B R s))).
Proof. unfold bind. destruct (exitHibernate B R s). reflexivity. Qed.

(** ** The driver object through the configuration steps *)













(** C2. When the Data-Not-Ready poll of [initialize] times out, the call
    returns there: its result is the plain [tt] of every other return,
    the system is the one the poll left, the driver object differs from
    the one before the call in the hibernate snapshot only, the only
    writes made are the two of [exitHibernate], and none goes to the
    design-capacity, Ichg-term, VEmpty or ModelCfg register. *)
Theorem initialize_aborts_on_DNR_timeout :
  config_regs_apart R ->
  forall (fuel : nat) (s s2 : Sys B),
    waitForDNRdataNotReady B R fuel
      (snd (storeHibernateCFG B R (snd (exitHibernate B R s))))
    = Some (false, s2) ->
    initialize B P R fuel s = Some (tt, s2) /\
    obj s2 = set_originalHibernateCFG (originalHibernateCFG (obj s2)) (obj s) /\
    filter is_write (new_ops B s s2)
    = [RegWrite (regHibCfg R) 0; RegWrite (regStatus R) 0] /\
    forall reg value,
      In reg [regDesignCap R; regIchgTerm R; regVEmpty R; regModelCfg R] ->
      ~ In (RegWrite reg value) (new_ops B s s2).
Proof.
  intros Hapart fuel s s2 Hpoll.
  assert (Hinit : initialize B P R fuel s = Some (tt, s2)).
  { unfold initialize. rewrite wake_and_store, Hpoll. reflexivity. }
  pose proof Hpoll as Hframe.
  apply waitForDNRdataNotReady_frame in Hframe.
  rewrite storeHibernateCFG_eq, exitHibernate_eq in Hframe.
  cbn [snd obj log board] in Hframe.
  destruct Hframe as [Hobj [l [Hlog Hreads]]].
  assert (Hnew : new_ops B s s2 =
                 [RegWrite (regHibCfg R) 0; RegWrite (regStatus R) 0]
                 ++ RegRead (regHibCfg R) (originalHibernateCFG (obj s2)) :: l).
  { apply new_ops_app. rewrite Hlog, Hobj. cbn [originalHibernateCFG set_originalHibernateCFG].
    rewrite <- !app_assoc. reflexivity. }
  split; [exact Hinit | split; [| split]].
  - rewrite Hobj. reflexivity.
  - rewrite Hnew. simpl. rewrite Hreads. reflexivity.
  - intros reg value Hreg Hin.
    assert (Hw : In (RegWrite reg value) (filter is_write (new_ops B s s2))).
    { apply filter_In. split; [exact Hin | reflexivity]. }
    rewrite Hnew in Hw. simpl in Hw. rewrite Hreads in Hw.
    unfold config_regs_apart in Hapart. rewrite Forall_forall in Hapart.
    destruct (Hapart reg Hreg) as [Hh Hs].
    destruct Hw as [Hw | [Hw | []]]; inversion Hw; congruence.
Qed.

(** ** Model configuration *)

Lemma refreshModelCFG_eq (r100 vChg : bool) (modelID : Z) (s : Sys B) :
  refreshModelCFG B R r100 vChg modelID s =
  writeReg16Bit B R (regModelCfg R)
    (modelCfg_refreshed (fst (readReg16Bit B R (regModelCfg R) s))
                        r100 vChg modelID)
    (snd (readReg16Bit B R (regModelCfg R) s)).
Proof.
  unfold refreshModelCFG, bind.
  destruct (readReg16Bit B R (regModelCfg R) s). reflexivity.
Qed.

End DriverFacts.

Ltac closed_pos p :=
  lazymatch p with
  | xH => idtac
  | xO ?q => closed_pos q
  | xI ?q => closed_pos q
  end.

Ltac closed_Z z :=
  lazymatch z with
  | Z0 => idtac
  | Zpos ?p => closed_pos p
  | Zneg ?p => closed_pos p
  end.

(** Evaluate the tests on numerals in the goal. *)
Ltac const_bits :=
  repeat match goal with
  | |- context [Z.testbit ?c ?i] =>
      closed_Z c; closed_Z i;
      let v := eval vm_compute in (Z.testbit c i) in
      change (Z.testbit c i) with v
  | |- context [(?a <=? ?b)] =>
      closed_Z a; closed_Z b;
      let v := eval vm_compute in (a <=? b) in
      change (a <=? b) with v
  | |- context [(?a <? ?b)] =>
      closed_Z a; closed_Z b;
      let v := eval vm_compute in (a <? b) in
      change (a <? b) with v
  | |- context [?a - ?b] =>
      closed_Z a; closed_Z b;
      let v := eval vm_compute in (a - b) in
      change (a - b) with v
  | |- context [?a + ?b] =>
      closed_Z a; closed_Z b;
      let v := eval vm_compute in (a + b) in
      change (a + b) with v
  end.

Ltac refreshed_bit :=
  rewrite modelCfg_refreshed_testbit, nibble_testbit by lia;
  const_bits; cbn [andb orb];
  rewrite ?andb_true_r, ?andb_false_r, ?orb_true_r, ?orb_false_r.

(** C3, as the code has it.  The value [refreshModelCFG] writes has
    bit 15 set, bit 10 equal to vChg and bits 11, 9 and 8 clear; bit 13
    is set when r100 is true and is otherwise left as it was read; in
    bits 7-4 every bit that is 1 in the low nibble of modelID is set, and
    a bit that was read as 0 equals the matching bit of modelID; every
    other bit is as it was read. *)
Theorem refreshModelCFG_bits :
  forall (B : Board) (R : RegisterMap) (r100 vChg : bool) (modelID : Z)
         (s : Sys B),
    let prior := fst (readReg16Bit B R (regModelCfg R) s) in
    let written := modelCfg_refreshed prior r100 vChg modelID in
    new_ops B s (snd (refreshModelCFG B R r100 vChg modelID s))
    = [RegRead (regModelCfg R) prior; RegWrite (regModelCfg R) written] /\
    Z.testbit written 15 = true /\
    Z.testbit written 13 = (r100 || Z.testbit prior 13)%bool /\
    Z.testbit written 10 = vChg /\
    Z.testbit written 11 = false /\
    Z.testbit written 9 = false /\
    Z.testbit written 8 = false /\
    (forall j, 0 <= j < 4 ->
       (Z.testbit modelID j = true -> Z.testbit written (4 + j) = true) /\
       (Z.testbit prior (4 + j) = false ->
        Z.testbit written (4 + j) = Z.testbit modelID j)) /\
    (forall i, 0 <= i -> ~ In i [15; 13; 11; 10; 9; 8; 7; 6; 5; 4] ->
       Z.testbit written i = Z.testbit prior i).
Proof.
  intros B R r100 vChg modelID s prior written.
  assert (Hprior : 0 <= prior < 2 ^ 16).
  { unfold prior. rewrite readReg16Bit_eq. cbn [fst].
    change (2 ^ 16) with 65536. apply reg_value_range. }
  split; [| split; [| split; [| split; [| split; [| split; [| split;
    [| split; [intros j Hj0; split |]]]]]]]].
  - apply new_ops_app. rewrite refreshModelCFG_eq, writeReg16Bit_eq.
    fold prior. fold written.
    rewrite (u16_word written)
      by (unfold written; apply modelCfg_refreshed_word; exact Hprior).
    rewrite readReg16Bit_eq. cbn [snd log].
    rewrite <- app_assoc. unfold prior. rewrite readReg16Bit_eq. reflexivity.
  - unfold written. refreshed_bit. reflexivity.
  - unfold written. refreshed_bit. apply orb_comm.
  - unfold written. refreshed_bit. reflexivity.
  - unfold written. refreshed_bit. reflexivity.
  - unfold written. refreshed_bit. reflexivity.
  - unfold written. refreshed_bit. reflexivity.
  - intros Hm. unfold written.
    assert (Hj : j = 0 \/ j = 1 \/ j = 2 \/ j = 3) by lia.
    destruct Hj as [-> | [-> | [-> | ->]]];
      const_bits; refreshed_bit; rewrite Hm; apply orb_true_r.
  - intros Hp. unfold written.
    assert (Hj : j = 0 \/ j = 1 \/ j = 2 \/ j = 3) by lia.
    destruct Hj as [-> | [-> | [-> | ->]]];
      const_bits; refreshed_bit; revert Hp; const_bits; intros ->; reflexivity.
  - intros i Hi Hout. unfold written.
    destruct (Z.ltb_spec i 16) as [Hlt | Hge].
    + destruct (small_index i ltac:(lia))
        as [-> | [-> | [-> | [-> | [-> | [-> | [-> | [-> |
           [-> | [-> | [-> | [-> | [-> | [-> | [-> | ->]]]]]]]]]]]]]]];
        try (exfalso; apply Hout; simpl; tauto);
        refreshed_bit; reflexivity.
    + rewrite modelCfg_refreshed_testbit, nibble_testbit by lia.
      rewrite (testbit_above prior 16 i) by lia.
      rewrite (testbit_above 8192 16 i), (testbit_above 1024 16 i),
        (testbit_above 32768 16 i) by lia.
      replace (i <? 8) with false by (symmetry; apply Z.ltb_ge; lia).
      rewrite ?andb_false_r. reflexivity.
Qed.

(** ModelCfg reads 0x4001; with r100, vChg and model ID 6 the driver
    writes 0xE461: bits 14 and 0 are kept, bits 7-4 hold the ID. *)
Lemma refreshModelCFG_bits_witness :
  let s := Sim.power_up true 0 [(219, 0x4001)] 0 in
  new_ops _ s (snd (refreshModelCFG (Sim.sim_board true) Sim.registers
                      true true 6 s))
  = [RegRead 219 0x4001; RegWrite 219 0xE461] /\
  Z.testbit 0xE461 (4 + 1) = Z.testbit 6 1 /\
  Z.testbit 0xE461 14 = Z.testbit 0x4001 14.
Proof.
  destruct (refreshModelCFG_bits (Sim.sim_board true) Sim.registers
              true true 6 (Sim.power_up true 0 [(219, 0x4001)] 0))
    as [Hops [_ [_ [_ [_ [_ [_ [Hid Hrest]]]]]]]].
  split; [exact Hops | split].
  - apply (Hid 1); [lia | reflexivity].
  - apply (Hrest 14); [lia |].
    simpl. intros [H | [H | [H | [H | [H | [H | [H | [H | [H | [H | []]]]]]]]]]];
      discriminate H.
Defined.

(** C3, as stated, fails on the code: with bit 13 of ModelCfg set
    beforehand and r100 false, the value written still has bit 13 set. *)
Lemma refreshModelCFG_keeps_R100 :
  let s := Sim.power_up true 0 [(219, 8192)] 0 in
  let r100 := false in
  exists written,
    new_ops _ s (snd (refreshModelCFG (Sim.sim_board true) Sim.registers
                        r100 false 0 s))
    = [RegRead 219 8192; RegWrite 219 written] /\
    Z.testbit written 13 <> r100.
Proof.
  exists 40960. split; [vm_compute; reflexivity | vm_compute; discriminate].
Qed.

(** ** The production test *)

Lemma productionTest_trace (B : Board) (P : Platform) (R : RegisterMap)
      (K : Scales) (s : Sys B) :
  fst (productionTest B P R K s) = tt /\
  obj (snd (productionTest B P R K s)) = obj s /\
  exists modelCfg designCapReg vcellRaw,
    new_ops B s (snd (productionTest B P R K s))
    = RegRead (regStatus R) (fst (getStatus B R s))
      :: RegRead (regModelCfg R) modelCfg
      :: RegRead (regDesignCap R) designCapReg
      :: (if communication_failure B R s then []
          else [RegRead (regVCell R) vcellRaw]).
Proof.
  unfold productionTest, communication_failure, getStatus, getVcell, bind, ret.
  rewrite !readReg16Bit_eq. cbn [fst snd].
  destruct (reg_value B R (regStatus R) (board s) =? 65535).
  - split; [reflexivity | split; [reflexivity |]].
    eexists _, _, 0. apply new_ops_app. cbn [log].
    rewrite <- !app_assoc. reflexivity.
  - rewrite readReg16Bit_eq.
    destruct (voltage_out_of_range P _);
      (split; [reflexivity | split; [reflexivity |]];
       eexists _, _, _; apply new_ops_app; cbn [log];
       rewrite <- !app_assoc; reflexivity).
Qed.

(** C4, as the code has it.  [productionTest] reads Status, ModelCfg and
    DesignCap and, unless Status read 0xFFFF, VCell; it writes no
    register, hands back the plain [tt] and leaves the driver object as
    it was.  It is a total function: it always returns. *)
Theorem productionTest_silent :
  forall (B : Board) (P : Platform) (R : RegisterMap) (K : Scales) (s : Sys B),
    fst (productionTest B P R K s) = tt /\
    obj (snd (productionTest B P R K s)) = obj s /\
    filter is_write (new_ops B s (snd (productionTest B P R K s))) = [] /\
    map (fun op => match op with RegRead r _ | RegWrite r _ => r end)
        (new_ops B s (snd (productionTest B P R K s)))
    = regStatus R :: regModelCfg R :: regDesignCap R
      :: (if communication_failure B R s then [] else [regVCell R]).
Proof.
  intros B P R K s.
  destruct (productionTest_trace B P R K s) as [Hr [Ho [mc [dc [vc Hl]]]]].
  split; [exact Hr | split; [exact Ho |]].
  rewrite Hl. destruct (communication_failure B R s); split; reflexivity.
Qed.

(** C4, as stated, fails on the code: a board whose Status reads 0xFFFF
    and a healthy one hand the caller the same result, so no finding can
    be told from it. *)
Lemma productionTest_reports_nothing :
  ~ productionTest_reports (Sim.sim_board true) Sim.platform Sim.registers
      Sim.scales.
Proof.
  intros [decode H].
  pose proof (H (Sim.power_up true 0 [(0, 65535)] 0)) as Hbad.
  pose proof (H (Sim.power_up true 0 [(9, 47360)] 0)) as Hgood.
  destruct (productionTest_trace (Sim.sim_board true) Sim.platform Sim.registers
              Sim.scales (Sim.power_up true 0 [(0, 65535)] 0)) as [Hr1 [Ho1 _]].
  destruct (productionTest_trace (Sim.sim_board true) Sim.platform Sim.registers
              Sim.scales (Sim.power_up true 0 [(9, 47360)] 0)) as [Hr2 [Ho2 _]].
  rewrite Hr1, Ho1 in Hbad. rewrite Hr2, Ho2 in Hgood.
  change (obj (Sim.power_up true 0 [(0, 65535)] 0)) with Sim.driver in Hbad.
  change (obj (Sim.power_up true 0 [(9, 47360)] 0)) with Sim.driver in Hgood.
  rewrite Hbad in Hgood. vm_compute in Hgood. discriminate Hgood.
Qed.

(** ** Short reads *)

(** C8. When fewer than two bytes are available after the request,
    [readReg16Bit] returns 0 for every register address; the driver
    object is untouched and the transaction is logged as a read of 0,
    exactly as a register holding 0 would be. *)
Theorem readReg16Bit_short_read :
  forall (B : Board) (R : RegisterMap) (reg : Z) (s : Sys B),
    fst (Wire_available B (read_request B R reg (board s))) < 2 ->
    fst (readReg16Bit B R reg s) = 0 /\
    obj (snd (readReg16Bit B R reg s)) = obj s /\
    log (snd (readReg16Bit B R reg s)) = log s ++ [RegRead reg 0].
Proof.
  intros B R reg s Hshort.
  assert (Hv : reg_value B R reg (board s) = 0).
  { unfold reg_value, bus_read, read_reply.
    destruct (Wire_available B (read_request B R reg (board s))) as [n h0].
    cbn [fst] in Hshort.
    destruct (Z.leb_spec 2 n); [lia | reflexivity]. }
  rewrite readReg16Bit_eq. cbn [fst snd obj log]. rewrite Hv. auto.
Qed.

(** A board that does not answer: the read of TimeToEmpty yields 0. *)
Lemma readReg16Bit_short_read_witness :
  fst (readReg16Bit (Sim.sim_board false) Sim.registers 17
         (Sim.power_up false 1234 [] 0)) = 0.
Proof.
  apply (readReg16Bit_short_read (Sim.sim_board false) Sim.registers 17
           (Sim.power_up false 1234 [] 0)).
  vm_compute. reflexivity.
Defined.

(** ** The multipliers are set in one place *)

Lemma perform_obj (B : Board) (P : Platform) (R : RegisterMap) (K : Scales)
      (c : Call) (s : Sys B) :
  obj (perform B P R K c s) = obj s.
Proof.
  destruct c; unfold perform, getCurrent, getVcell, getAvgVCell,
    getCapacity_mAh, getSOC, getTimeToEmpty, getTemp, setDesignCap_mAh,
    setIchgTerm, setVEmpty, bind, ret, this;
    rewrite ?readReg16Bit_eq, ?writeReg16Bit_eq; try reflexivity.
  destruct (_ =? 65535); reflexivity.
Qed.

(** C9. No telemetry accessor and no setter touches the two derived
    multipliers: each call leaves them as they were, so after
    [calcMultipliers] any sequence of such calls still finds the values
    [calcMultipliers] stored. *)
Theorem multipliers_fixed_after_calcMultipliers :
  forall (B : Board) (P : Platform) (R : RegisterMap) (K : Scales),
    (forall (c : Call) (s : Sys B),
        multipliers (obj (perform B P R K c s)) = multipliers (obj s)) /\
    (forall (r : float) (s : Sys B) (cs : list Call),
        multipliers
          (obj (perform_all B P R K cs (snd (calcMultipliers B P r s))))
        = (current_per_LSB P r, capacity_per_LSB P r)).
Proof.
  intros B P R K. split.
  - intros c s. rewrite perform_obj. reflexivity.
  - intros r s cs.
    assert (Hall : forall cs (s0 : Sys B),
               obj (perform_all B P R K cs s0) = obj s0).
    { clear. unfold perform_all.
      induction cs as [| c cs IH]; intros s0; cbn [fold_left].
      - reflexivity.
      - rewrite IH. apply perform_obj. }
    rewrite Hall. reflexivity.
Qed.

(** ** The VEmpty register *)





(** ** The simulated board *)

Ltac sim_step :=
  cbn -[Z.land Z.shiftr Z.lor Z.shiftl u16 Z.modulo Z.div Z.mul Z.add Z.eqb
        Z.to_nat];
  unfold Sim.read, Sim.requestFrom, Sim.available, Sim.endTransmission,
    Sim.write, Sim.beginTransmission, Sim.sleep;
  change (Z.to_nat 2) with 2%nat.

Ltac sim_run :=
  unfold reg_value, bus_read, bus_write, read_reply, read_request;
  do 4 sim_step;
  cbn -[Z.land Z.shiftr Z.lor Z.shiftl u16 Z.modulo Z.div Z.mul Z.add Z.eqb].

Lemma sim_echo (R : RegisterMap) : echo_bus (Sim.sim_board true) R.
Proof.
  constructor.
  - intros reg v h Hv. sim_run.
    unfold Sim.store. rewrite Z.eqb_refl.
    rewrite land_255, land_255, Z.shiftr_div_pow2 by lia.
    change (2 ^ 8) with 256.
    assert (Hq : 0 <= v / 256 < 256)
      by (split; [apply Z.div_pos; lia | apply Z.div_lt_upper_bound; lia]).
    rewrite (Z.mod_small (v / 256)) by lia.
    replace (v mod 256 + 256 * (v / 256)) with v
      by (pose proof (Z.div_mod v 256 ltac:(lia)); lia).
    apply word_of_bytes. exact Hv.
  - intros reg reg' v h Hne. sim_run.
    unfold Sim.store.
    destruct (Z.eqb_spec reg reg') as [E | _]; [contradiction | reflexivity].
  - intros reg d h. sim_run. reflexivity.
Qed.


Lemma sim_config_regs_apart : config_regs_apart Sim.registers.
Proof.
  unfold config_regs_apart.
  repeat constructor; simpl; discriminate.
Qed.

(** FStat bit 0 stuck at 1: the call returns after 1010 ms on the clock
    with the two writes of [exitHibernate] only. *)
Lemma initialize_aborts_on_DNR_timeout_witness :
  let s := Sim.power_up true 0 [(186, 34572); (61, 1)] 5000 in
  exists s2,
    initialize (Sim.sim_board true) Sim.platform Sim.registers 200 s
    = Some (tt, s2) /\
    filter is_write (new_ops _ s s2) = [RegWrite 186 0; RegWrite 0 0] /\
    Sim.clock (board s2) = 6010.
Proof.
  intros s.
  destruct (waitForDNRdataNotReady (Sim.sim_board true) Sim.registers 200
              (snd (storeHibernateCFG (Sim.sim_board true) Sim.registers
                      (snd (exitHibernate (Sim.sim_board true) Sim.registers s)))))
    as [[[|] s2] |] eqn:E;
    [vm_compute in E; discriminate | | vm_compute in E; discriminate].
  exists s2.
  destruct (initialize_aborts_on_DNR_timeout
              (Sim.sim_board true) Sim.platform Sim.registers
              sim_config_regs_apart 200 s s2 E) as [Hinit [_ [Hw _]]].
  split; [exact Hinit | split; [exact Hw |]].
  vm_compute in E. inversion E. reflexivity.
Defined.

(** ** Time to empty *)

(** C5. With a time-per-LSB factor that is not negative,
    [getTimeToEmpty] returns -1 exactly when the TimeToEmpty register
    reads 0xFFFF, whether the caller compares structurally or with the
    float [==], and the product [raw * time_multiplier_Hours] for every
    other 16-bit raw value. *)
Theorem getTimeToEmpty_sentinel :
  forall (B : Board) (R : RegisterMap) (K : Scales) (s : Sys B),
    SFltb (time_multiplier_Hours K) (S754_zero false) = false ->
    let raw := fst (readReg16Bit B R (regTimeToEmpty R) s) in
    let result := fst (getTimeToEmpty B R K s) in
    0 <= raw < 65536 /\
    (raw = 65535 -> result = F32.of_int (-1)) /\
    (raw <> 65535 ->
     result = F32.mul (F32.of_int raw) (time_multiplier_Hours K)) /\
    (result = F32.of_int (-1) <-> raw = 65535) /\
    (SFeqb result (F32.of_int (-1)) = true <-> raw = 65535).
Proof.
  intros B R K s Htm raw result.
  assert (Hraw : 0 <= raw < 65536).
  { unfold raw. rewrite readReg16Bit_eq. apply reg_value_range. }
  assert (Hres : result = if raw =? 65535 then F32.of_int (-1)
                          else F32.mul (F32.of_int raw) (time_multiplier_Hours K)).
  { unfold result, raw, getTimeToEmpty, bind, ret.
    rewrite readReg16Bit_eq. cbn [fst].
    destruct (_ =? 65535); reflexivity. }
  pose proof (mul_not_negative (F32.of_int raw) (time_multiplier_Hours K)
                (of_int_sign raw ltac:(lia)) Htm) as Hnn.
  apply not_negative_finite_differs in Hnn. destruct Hnn as [Hne Heqb].
  rewrite Hres.
  destruct (Z.eqb_spec raw 65535) as [E | E].
  - split; [exact Hraw |]. repeat split; auto; try contradiction.
  - split; [exact Hraw |]. split; [contradiction |]. split; [reflexivity |].
    split; split; intros H; try contradiction.
    rewrite Heqb in H. discriminate H.
Qed.

(** Raw 0xFFFE with the data sheet's 5.625 s per LSB. *)
Lemma getTimeToEmpty_sentinel_witness :
  fst (getTimeToEmpty (Sim.sim_board true) Sim.registers Sim.scales
         (Sim.power_up true 0 [(17, 65534)] 0))
  = F32.mul (F32.of_int 65534) (time_multiplier_Hours Sim.scales).
Proof.
  destruct (getTimeToEmpty_sentinel (Sim.sim_board true) Sim.registers
              Sim.scales (Sim.power_up true 0 [(17, 65534)] 0))
    as [_ [_ [H _]]].
  - vm_compute. reflexivity.
  - apply H. vm_compute. discriminate.
Defined.

(** ** The empty voltage read back *)




(** ** The polls end *)

Lemma u32_add (a c : Z) : u32 (u32 a + c) = u32 (a + c).
Proof. unfold u32. apply Z.add_mod_idemp_l. lia. Qed.

Section Termination.

Variable B : Board.
Variable P : Platform.
Variable R : RegisterMap.
Hypothesis Steady : steady_clock B R.

Lemma clock_after_turn (reg : Z) (h : hw B) (c : Z) :
  u32 (fst (millis B (delay B 10 (snd (bus_read B R reg h)))) + c)
  = u32 (fst (millis B h) + (10 + c)).
Proof.
  rewrite <- u32_add, (clock_delay _ _ Steady), u32_add.
  rewrite <- Z.add_assoc, <- u32_add, (clock_read _ _ Steady), u32_add.
  reflexivity.
Qed.

Lemma waitForDNR_loop_returns (n : nat) :
  forall (fuel : nat) (timeout : Z) (s : Sys B),
    u32 (fst (millis B (board s)) + 10 * Z.of_nat n) = timeout ->
    (n < fuel)%nat ->
    exists b s', waitForDNR_loop B R timeout fuel s = Some (b, s').
Proof.
  induction n as [| n IH]; intros fuel timeout s Hclock Hfuel;
    (destruct fuel as [| fuel]; [lia |]); cbn [waitForDNR_loop];
    unfold ask_board;
    pose proof (clock_pure _ _ Steady (board s)) as Hpure;
    destruct (millis B (board s)) as [now h0] eqn:Enow;
    cbn [fst snd] in *; subst h0.
  - rewrite Z.add_0_r in Hclock. rewrite Hclock, Z.ltb_irrefl. eauto.
  - destruct (u32 now <? timeout); [| eauto].
    rewrite readReg16Bit_eq.
    destruct (Z.land _ 1 =? 0); [eauto |].
    apply IH; [| lia]. cbn [snd on_board board].
    rewrite clock_after_turn, Enow. cbn [fst].
    rewrite <- Hclock. f_equal. lia.
Qed.

Lemma waitForDNRdataNotReady_returns (fuel : nat) (s : Sys B) :
  (100 < fuel)%nat ->
  exists b s', waitForDNRdataNotReady B R fuel s = Some (b, s').
Proof.
  intros Hfuel. unfold waitForDNRdataNotReady, ask_board.
  pose proof (clock_pure _ _ Steady (board s)) as Hpure.
  destruct (millis B (board s)) as [now h0] eqn:Enow.
  cbn [fst snd] in *; subst h0.
  apply (waitForDNR_loop_returns 100); [| exact Hfuel].
  cbn [board]. rewrite Enow. cbn [fst]. symmetry. apply u32_add.
Qed.

Lemma waitforModelCFG_loop_returns (n : nat) :
  forall (fuel : nat) (timeout : Z) (s : Sys B),
    u32 (fst (millis B (board s)) + 10 * Z.of_nat n) = timeout ->
    (n < fuel)%nat ->
    exists b s', waitforModelCFG_loop B R timeout fuel s = Some (b, s').
Proof.
  induction n as [| n IH]; intros fuel timeout s Hclock Hfuel;
    (destruct fuel as [| fuel]; [lia |]); cbn [waitforModelCFG_loop];
    unfold ask_board;
    pose proof (clock_pure _ _ Steady (board s)) as Hpure;
    destruct (millis B (board s)) as [now h0] eqn:Enow;
    cbn [fst snd] in *; subst h0.
  - rewrite Z.add_0_r in Hclock. rewrite Hclock, Z.ltb_irrefl. eauto.
  - destruct (u32 now <? timeout); [| eauto].
    rewrite readReg16Bit_eq.
    destruct (Z.land _ 32768 =? 0); [eauto |].
    apply IH; [| lia]. cbn [snd on_board board].
    rewrite clock_after_turn, Enow. cbn [fst].
    rewrite <- Hclock. f_equal. lia.
Qed.

Lemma waitforModelCFGrefreshReady_returns (fuel : nat) (s : Sys B) :
  (100 < fuel)%nat ->
  exists b s', waitforModelCFGrefreshReady B R fuel s = Some (b, s').
Proof.
  intros Hfuel. unfold waitforModelCFGrefreshReady, ask_board.
  pose proof (clock_pure _ _ Steady (board s)) as Hpure.
  destruct (millis B (board s)) as [now h0] eqn:Enow.
  cbn [fst snd] in *; subst h0.
  apply (waitforModelCFG_loop_returns 100); [| exact Hfuel].
  cbn [board]. rewrite Enow. cbn [fst]. symmetry. apply u32_add.
Qed.

Lemma setEZconfig_returns (fuel : nat) (s : Sys B) :
  (100 < fuel)%nat -> exists s', setEZconfig B P R fuel s = Some (tt, s').
Proof.
  intros Hfuel. unfold setEZconfig.
  destruct (waitForDNRdataNotReady_returns fuel s Hfuel) as [b [s1 E1]].
  rewrite E1.
  destruct (waitforModelCFGrefreshReady_returns fuel
              (snd (write_EZ_parameters B P R s1)) Hfuel) as [b' [s2 E2]].
  rewrite E2. eauto.
Qed.

End Termination.

(** X1. With a clock that [delay] moves, each poll ends within 101 turns
    (a second of 10 ms steps), so [initialize] returns on every board
    state once each poll is given that much fuel. *)
Theorem initialize_returns :
  forall (B : Board) (P : Platform) (R : RegisterMap),
    steady_clock B R ->
    forall (fuel : nat) (s : Sys B),
      (100 < fuel)%nat ->
      exists s', initialize B P R fuel s = Some (tt, s').
Proof.
  intros B P R Steady fuel s Hfuel. unfold initialize.
  destruct (waitForDNRdataNotReady_returns B R Steady fuel
              (snd (bind B (exitHibernate B R)
                      (fun _ => storeHibernateCFG B R) s)) Hfuel)
    as [[|] [s2 E1]]; rewrite E1; [| eauto].
  destruct (setEZconfig_returns B P R Steady fuel
              (snd (bind B (clearPORpowerOnReset B R)
                      (fun _ => bind B (this B)
                         (fun d => calcMultipliers B P (rSense d))) s2)) Hfuel)
    as [s4 E2].
  rewrite E2.
  destruct (bind B (setLEDCfg1 B R) _ s4) as [[] s5]. eauto.
Qed.

Lemma sim_steady_clock (answering : bool) (R : RegisterMap) :
  steady_clock (Sim.sim_board answering) R.
Proof.
  constructor.
  - reflexivity.
  - intros reg h. unfold bus_read, read_reply, read_request.
    destruct answering; sim_step; sim_step; sim_step; sim_step;
      cbn; try reflexivity.
  - intros d h. reflexivity.
Qed.

(** A start 296 ms before the 32-bit millisecond count wraps. *)
Lemma initialize_returns_witness :
  exists s',
    initialize (Sim.sim_board true) Sim.platform Sim.registers 101
      (Sim.power_up true 0 [(61, 1)] 4294967000) = Some (tt, s').
Proof.
  apply (initialize_returns (Sim.sim_board true) Sim.platform Sim.registers
           (sim_steady_clock true Sim.registers)).
  lia.
Defined.

(** ** Status flags *)

Lemma land_pow2_eqb (x k : Z) :
  0 <= k -> (Z.land x (2 ^ k) =? 0) = negb (Z.testbit x k).
Proof.
  intros Hk. destruct (Z.testbit x k) eqn:Hb; cbn [negb].
  - apply Z.eqb_neq. intros E.
    assert (Hbit : Z.testbit (Z.land x (2 ^ k)) k = true)
      by (rewrite Z.land_spec, Hb, Z.pow2_bits_true by lia; reflexivity).
    rewrite E, Z.bits_0 in Hbit. discriminate Hbit.
  - apply Z.eqb_eq. apply Z.bits_inj'. intros i Hi.
    rewrite Z.land_spec, Z.bits_0.
    destruct (Z.eq_dec i k) as [-> | Hne].
    + rewrite Hb. reflexivity.
    + rewrite Z.pow2_bits_false by lia. apply andb_false_r.
Qed.

(** X2. [batteryPresent] is true exactly when bit 3 (BSt) of the status
    register reads 0, [powerOnResetEvent] exactly when bit 1 (POR) reads
    1. *)
Theorem status_flags :
  forall (B : Board) (R : RegisterMap) (s : Sys B),
    let status := fst (getStatus B R s) in
    fst (batteryPresent B R s) = negb (Z.testbit status 3) /\
    fst (powerOnResetEvent B R s) = Z.testbit status 1.
Proof.
  intros B R s status. unfold status, batteryPresent, powerOnResetEvent, bind, ret.
  destruct (getStatus B R s) as [st s']. cbn [fst].
  change (Z.land st 8) with (Z.land st (2 ^ 3)).
  change (Z.land st 2) with (Z.land st (2 ^ 1)).
  rewrite (land_pow2_eqb st 3), (land_pow2_eqb st 1) by lia.
  rewrite negb_involutive. auto.
Qed.

(** X3. [clearPORpowerOnReset] reads the status register and writes it back
    with bit 1 (POR) cleared and every other bit as it was read. *)
Theorem clearPORpowerOnReset_bits :
  forall (B : Board) (R : RegisterMap) (s : Sys B),
    let status := fst (readReg16Bit B R (regStatus R) s) in
    let written := Z.land status 0xFFFD in
    new_ops B s (snd (clearPORpowerOnReset B R s))
    = [RegRead (regStatus R) status; RegWrite (regStatus R) written] /\
    Z.testbit written 1 = false /\
    forall i, 0 <= i -> i <> 1 -> Z.testbit written i = Z.testbit status i.
Proof.
  intros B R s status written.
  assert (Hst : 0 <= status < 2 ^ 16).
  { unfold status. rewrite readReg16Bit_eq. apply reg_value_range. }
  split; [| split].
  - apply new_ops_app. unfold clearPORpowerOnReset, bind, written, status.
    rewrite !readReg16Bit_eq, writeReg16Bit_eq. cbn [fst snd log].
    rewrite u16_word by apply land_word, reg_value_range.
    rewrite <- app_assoc. reflexivity.
  - unfold written. rewrite Z.land_spec. const_bits. apply andb_false_r.
  - intros i Hi Hne. unfold written. rewrite Z.land_spec.
    destruct (Z.ltb_spec i 16) as [Hlt | Hge].
    + destruct (small_index i ltac:(lia))
        as [-> | [-> | [-> | [-> | [-> | [-> | [-> | [-> |
           [-> | [-> | [-> | [-> | [-> | [-> | [-> | ->]]]]]]]]]]]]]]];
        try contradiction; const_bits; apply andb_true_r.
    + rewrite (testbit_above status 16 i) by lia. reflexivity.
Qed.

(** ** Transport *)

(** X4. Over the simulated bus a 16-bit value written to a register is the
    value [readReg16Bit] returns for it next: the two bytes go out and
    come back low byte first. *)
Theorem register_round_trip :
  forall (R : RegisterMap) (reg value : Z) (s : Sys (Sim.sim_board true)),
    0 <= value < 65536 ->
    fst (readReg16Bit (Sim.sim_board true) R reg
           (snd (writeReg16Bit (Sim.sim_board true) R reg value s)))
    = value.
Proof.
  intros R reg value s Hv.
  rewrite writeReg16Bit_eq, readReg16Bit_eq. cbn [fst snd board].
  apply (echo_same _ _ (sim_echo R)). exact Hv.
Qed.

(** 0xBEEF through the DesignCap register. *)
Lemma register_round_trip_witness :
  fst (readReg16Bit (Sim.sim_board true) Sim.registers 24
         (snd (writeReg16Bit (Sim.sim_board true) Sim.registers 24 0xBEEF
                 (Sim.power_up true 0 [] 0))))
  = 0xBEEF.
Proof.
  apply (register_round_trip Sim.registers 24 0xBEEF (Sim.power_up true 0 [] 0)).
  lia.
Defined.

(** * Further properties *)

(** ** Queries only read *)

(** X5. Every status query and telemetry accessor makes exactly one bus
    transaction, a read of its own register; it writes nothing and
    leaves the driver object as it was. *)
Theorem queries_only_read :
  forall (B : Board) (P : Platform) (R : RegisterMap) (K : Scales)
         (q : Query) (s : Sys B),
    obj (ask B P R K q s) = obj s /\
    new_ops B s (ask B P R K q s)
    = [RegRead (asked_register R q)
         (reg_value B R (asked_register R q) (board s))] /\
    board (ask B P R K q s)
    = snd (bus_read B R (asked_register R q) (board s)).
Proof.
  intros B P R K q s.
  destruct q; unfold ask, asked_register, getStatus, batteryPresent,
    powerOnResetEvent, getStatus, getCurrent, getVcell, getAvgVCell,
    getCapacity_mAh, getSOC, getTimeToEmpty, getTemp, bind, ret, this;
    rewrite readReg16Bit_eq;
    try (destruct (_ =? 65535));
    (split; [reflexivity | split; [apply new_ops_app; reflexivity | reflexivity]]).
Qed.

(** ** Bytes into a word *)

(** X6. When two bytes are available, [readReg16Bit] returns the first
    byte read as the low half and the second as the high half of the
    value; whatever the bus delivers, the value lies in 0..65535. *)
Theorem readReg16Bit_little_endian :
  forall (B : Board) (R : RegisterMap) (reg : Z) (s : Sys B),
    0 <= fst (readReg16Bit B R reg s) < 65536 /\
    forall n h0 b0 h1 b1 h2,
      Wire_available B (read_request B R reg (board s)) = (n, h0) ->
      2 <= n ->
      Wire_read B h0 = (b0, h1) ->
      Wire_read B h1 = (b1, h2) ->
      0 <= b0 < 256 -> 0 <= b1 < 256 ->
      fst (readReg16Bit B R reg s) = b0 + 256 * b1 /\
      board (snd (readReg16Bit B R reg s)) = h2.
Proof.
  intros B R reg s. rewrite readReg16Bit_eq. cbn [fst snd board].
  split; [apply reg_value_range |].
  intros n h0 b0 h1 b1 h2 Hav Hn Hr0 Hr1 Hb0 Hb1.
  unfold reg_value, bus_read, read_reply. rewrite Hav.
  replace (2 <=? n) with true by (symmetry; apply Z.leb_le; exact Hn).
  rewrite Hr0, Hr1. cbn [fst snd]. split; [| reflexivity].
  unfold u16. change (2 ^ 16) with 65536.
  rewrite (Z.mod_small b0), (Z.mod_small b1) by lia.
  rewrite lor_low_high by (change (2 ^ 8) with 256; lia).
  change (2 ^ 8) with 256. apply Z.mod_small. lia.
Qed.

(** The DesignCap register of the simulated chip holds 0x1770: the bytes
    0x70, 0x17 come back as 6000. *)
Lemma readReg16Bit_little_endian_witness :
  fst (readReg16Bit (Sim.sim_board true) Sim.registers 24
         (Sim.power_up true 0 [(24, 0x1770)] 0)) = 0x70 + 256 * 0x17.
Proof.
  destruct (readReg16Bit_little_endian (Sim.sim_board true) Sim.registers 24
              (Sim.power_up true 0 [(24, 0x1770)] 0)) as [_ H].
  refine (proj1 (H 2 _ 0x70 _ 0x17 _ _ _ _ _ _ _));
    try reflexivity; lia.
Defined.

(** ** What a poll saw *)

Section PollOutcome.

Variable B : Board.
Variable R : RegisterMap.

Lemma waitForDNR_loop_outcome (fuel : nat) :
  forall timeout (s s' : Sys B) b,
    waitForDNR_loop B R timeout fuel s = Some (b, s') ->
    exists l,
      log s' = log s ++ l /\
      if b then exists l0 op, l = l0 ++ [op] /\
                              Forall (polled (regFStat R) 1 false) l0 /\
                              polled (regFStat R) 1 true op
      else Forall (polled (regFStat R) 1 false) l.
Proof.
  induction fuel as [| fuel IH]; intros timeout s s' b; cbn [waitForDNR_loop].
  - discriminate.
  - unfold ask_board.
    destruct (millis B (board s)) as [now h0].
    destruct (u32 now <? timeout).
    + rewrite readReg16Bit_eq.
      destruct (Z.land _ 1 =? 0) eqn:Eflag.
      * intros E. inversion E; subst; clear E. cbn [log].
        eexists. split; [reflexivity |].
        exists [], (RegRead (regFStat R) (reg_value B R (regFStat R) h0)).
        split; [reflexivity | split; [constructor |]].
        eexists. split; [reflexivity | exact Eflag].
      * intros E. apply IH in E. cbn [snd on_board log] in E.
        destruct E as [l [Hl Hb]].
        exists (RegRead (regFStat R) (reg_value B R (regFStat R) h0) :: l).
        split; [rewrite Hl, <- app_assoc; reflexivity |].
        assert (Hhere : polled (regFStat R) 1 false
                          (RegRead (regFStat R) (reg_value B R (regFStat R) h0)))
          by (eexists; split; [reflexivity | exact Eflag]).
        destruct b.
        -- destruct Hb as [l0 [op [El [Hl0 Hop]]]].
           exists (RegRead (regFStat R) (reg_value B R (regFStat R) h0) :: l0), op.
           split; [rewrite El; reflexivity | split; [constructor; assumption | exact Hop]].
        -- constructor; assumption.
    + intros E. inversion E; subst; clear E. cbn [log].
      exists []. rewrite app_nil_r. split; [reflexivity | constructor].
Qed.

Lemma waitforModelCFG_loop_outcome (fuel : nat) :
  forall timeout (s s' : Sys B) b,
    waitforModelCFG_loop B R timeout fuel s = Some (b, s') ->
    exists l,
      log s' = log s ++ l /\
      if b then exists l0 op, l = l0 ++ [op] /\
                              Forall (polled (regModelCfg R) 0x8000 false) l0 /\
                              polled (regModelCfg R) 0x8000 true op
      else Forall (polled (regModelCfg R) 0x8000 false) l.
Proof.
  induction fuel as [| fuel IH]; intros timeout s s' b; cbn [waitforModelCFG_loop].
  - discriminate.
  - unfold ask_board.
    destruct (millis B (board s)) as [now h0].
    destruct (u32 now <? timeout).
    + rewrite readReg16Bit_eq.
      destruct (Z.land _ 32768 =? 0) eqn:Eflag.
      * intros E. inversion E; subst; clear E. cbn [log].
        eexists. split; [reflexivity |].
        exists [], (RegRead (regModelCfg R) (reg_value B R (regModelCfg R) h0)).
        split; [reflexivity | split; [constructor |]].
        eexists. split; [reflexivity | exact Eflag].
      * intros E. apply IH in E. cbn [snd on_board log] in E.
        destruct E as [l [Hl Hb]].
        exists (RegRead (regModelCfg R) (reg_value B R (regModelCfg R) h0) :: l).
        split; [rewrite Hl, <- app_assoc; reflexivity |].
        assert (Hhere : polled (regModelCfg R) 0x8000 false
                          (RegRead (regModelCfg R) (reg_value B R (regModelCfg R) h0)))
          by (eexists; split; [reflexivity | exact Eflag]).
        destruct b.
        -- destruct Hb as [l0 [op [El [Hl0 Hop]]]].
           exists (RegRead (regModelCfg R) (reg_value B R (regModelCfg R) h0) :: l0), op.
           split; [rewrite El; reflexivity | split; [constructor; assumption | exact Hop]].
        -- constructor; assumption.
    + intros E. inversion E; subst; clear E. cbn [log].
      exists []. rewrite app_nil_r. split; [reflexivity | constructor].
Qed.

End PollOutcome.

(** X7. A poll that returns did nothing but read its register: when it
    reports success the last read found the flag clear and all earlier
    ones found it set; when it reports a timeout every read found the
    flag set.  This holds for the Data-Not-Ready poll (FStat bit 0) and
    for the refresh poll (ModelCfg bit 15). *)
Theorem polls_report_what_they_read :
  forall (B : Board) (R : RegisterMap) (fuel : nat) (s s' : Sys B) (b : bool),
    (waitForDNRdataNotReady B R fuel s = Some (b, s') ->
     if b then exists l0 op, new_ops B s s' = l0 ++ [op] /\
                             Forall (polled (regFStat R) 0x0001 false) l0 /\
                             polled (regFStat R) 0x0001 true op
     else Forall (polled (regFStat R) 0x0001 false) (new_ops B s s')) /\
    (waitforModelCFGrefreshReady B R fuel s = Some (b, s') ->
     if b then exists l0 op, new_ops B s s' = l0 ++ [op] /\
                             Forall (polled (regModelCfg R) 0x8000 false) l0 /\
                             polled (regModelCfg R) 0x8000 true op
     else Forall (polled (regModelCfg R) 0x8000 false) (new_ops B s s')).
Proof.
  intros B R fuel s s' b. split.
  - unfold waitForDNRdataNotReady, ask_board.
    destruct (millis B (board s)) as [now h0]. intros E.
    apply waitForDNR_loop_outcome in E. cbn [log] in E.
    destruct E as [l [Hl Hb]].
    rewrite (new_ops_app B s s' l Hl). exact Hb.
  - unfold waitforModelCFGrefreshReady, ask_board.
    destruct (millis B (board s)) as [now h0]. intros E.
    apply waitforModelCFG_loop_outcome in E. cbn [log] in E.
    destruct E as [l [Hl Hb]].
    rewrite (new_ops_app B s s' l Hl). exact Hb.
Qed.

(** The flag is clear at the first look: one read, success. *)
Lemma polls_report_what_they_read_witness :
  let s := Sim.power_up true 0 [(61, 0)] 5000 in
  exists s',
    waitForDNRdataNotReady (Sim.sim_board true) Sim.registers 5 s
    = Some (true, s') /\
    exists l0 op, new_ops _ s s' = l0 ++ [op] /\ polled 61 1 true op.
Proof.
  intros s.
  destruct (waitForDNRdataNotReady (Sim.sim_board true) Sim.registers 5 s)
    as [[[|] s'] |] eqn:E;
    [| vm_compute in E; discriminate E | vm_compute in E; discriminate E].
  exists s'. split; [reflexivity |].
  destruct (proj1 (polls_report_what_they_read (Sim.sim_board true)
                     Sim.registers 5 s s' true) E) as [l0 [op [Hl [_ Hop]]]].
  exists l0, op. split; assumption.
Defined.

(** ** How long a poll reads *)

Section PollBound.

Variable B : Board.
Variable R : RegisterMap.
Hypothesis Steady : steady_clock B R.

Lemma waitForDNR_loop_bound (n : nat) :
  forall (fuel : nat) (timeout : Z) (s s' : Sys B) (b : bool),
    u32 (fst (millis B (board s)) + 10 * Z.of_nat n) = timeout ->
    waitForDNR_loop B R timeout fuel s = Some (b, s') ->
    exists l, log s' = log s ++ l /\ (length l <= n)%nat.
Proof.
  induction n as [| n IH]; intros fuel timeout s s' b Hclock;
    (destruct fuel as [| fuel]; [discriminate |]); cbn [waitForDNR_loop];
    unfold ask_board;
    pose proof (clock_pure _ _ Steady (board s)) as Hpure;
    destruct (millis B (board s)) as [now h0] eqn:Enow;
    cbn [fst snd] in *; subst h0.
  - rewrite Z.add_0_r in Hclock. rewrite Hclock, Z.ltb_irrefl.
    intros E. inversion E; subst; clear E. cbn [log].
    exists []. rewrite app_nil_r. split; [reflexivity | apply Nat.le_refl].
  - destruct (u32 now <? timeout).
    + rewrite readReg16Bit_eq.
      destruct (Z.land _ 1 =? 0).
      * intros E. inversion E; subst; clear E. cbn [log].
        eexists. split; [reflexivity |]. cbn [length]. lia.
      * intros E. apply IH in E.
        -- cbn [snd on_board log] in E. destruct E as [l [Hl Hn]].
           eexists. split; [rewrite Hl, <- app_assoc; reflexivity |].
           cbn [app length]. lia.
        -- cbn [snd on_board board].
           rewrite (clock_after_turn B R Steady), Enow. cbn [fst].
           rewrite <- Hclock. f_equal. lia.
    + intros E. inversion E; subst; clear E. cbn [log].
      exists []. rewrite app_nil_r. split; [reflexivity | cbn; lia].
Qed.

Lemma waitforModelCFG_loop_bound (n : nat) :
  forall (fuel : nat) (timeout : Z) (s s' : Sys B) (b : bool),
    u32 (fst (millis B (board s)) + 10 * Z.of_nat n) = timeout ->
    waitforModelCFG_loop B R timeout fuel s = Some (b, s') ->
    exists l, log s' = log s ++ l /\ (length l <= n)%nat.
Proof.
  induction n as [| n IH]; intros fuel timeout s s' b Hclock;
    (destruct fuel as [| fuel]; [discriminate |]); cbn [waitforModelCFG_loop];
    unfold ask_board;
    pose proof (clock_pure _ _ Steady (board s)) as Hpure;
    destruct (millis B (board s)) as [now h0] eqn:Enow;
    cbn [fst snd] in *; subst h0.
  - rewrite Z.add_0_r in Hclock. rewrite Hclock, Z.ltb_irrefl.
    intros E. inversion E; subst; clear E. cbn [log].
    exists []. rewrite app_nil_r. split; [reflexivity | apply Nat.le_refl].
  - destruct (u32 now <? timeout).
    + rewrite readReg16Bit_eq.
      destruct (Z.land _ 32768 =? 0).
      * intros E. inversion E; subst; clear E. cbn [log].
        eexists. split; [reflexivity |]. cbn [length]. lia.
      * intros E. apply IH in E.
        -- cbn [snd on_board log] in E. destruct E as [l [Hl Hn]].
           eexists. split; [rewrite Hl, <- app_assoc; reflexivity |].
           cbn [app length]. lia.
        -- cbn [snd on_board board].
           rewrite (clock_after_turn B R Steady), Enow. cbn [fst].
           rewrite <- Hclock. f_equal. lia.
    + intros E. inversion E; subst; clear E. cbn [log].
      exists []. rewrite app_nil_r. split; [reflexivity | cbn; lia].
Qed.

Lemma poll_start (s : Sys B) :
  u32 (fst (millis B (board s)) + 10 * Z.of_nat 100)
  = u32 (u32 (fst (millis B (board s))) + 1000).
Proof. symmetry. apply u32_add. Qed.

End PollBound.

(** X8. With a clock that [delay] moves, a poll reads its register at
    most 100 times before it returns, whatever the register holds. *)
Theorem polls_read_at_most_100_times :
  forall (B : Board) (R : RegisterMap),
    steady_clock B R ->
    forall (fuel : nat) (s s' : Sys B) (b : bool),
      (waitForDNRdataNotReady B R fuel s = Some (b, s') ->
       (length (new_ops B s s') <= 100)%nat) /\
      (waitforModelCFGrefreshReady B R fuel s = Some (b, s') ->
       (length (new_ops B s s') <= 100)%nat).
Proof.
  intros B R Steady fuel s s' b. split.
  - unfold waitForDNRdataNotReady, ask_board.
    pose proof (clock_pure _ _ Steady (board s)) as Hpure.
    destruct (millis B (board s)) as [now h0] eqn:Enow.
    cbn [snd] in Hpure. subst h0. intros E.
    apply (waitForDNR_loop_bound B R Steady 100) in E.
    + cbn [log] in E. destruct E as [l [Hl Hn]].
      rewrite (new_ops_app B s s' l Hl). exact Hn.
    + cbn [board]. rewrite poll_start, Enow. reflexivity.
  - unfold waitforModelCFGrefreshReady, ask_board.
    pose proof (clock_pure _ _ Steady (board s)) as Hpure.
    destruct (millis B (board s)) as [now h0] eqn:Enow.
    cbn [snd] in Hpure. subst h0. intros E.
    apply (waitforModelCFG_loop_bound B R Steady 100) in E.
    + cbn [log] in E. destruct E as [l [Hl Hn]].
      rewrite (new_ops_app B s s' l Hl). exact Hn.
    + cbn [board]. rewrite poll_start, Enow. reflexivity.
Qed.

(** A flag that stays set is read exactly 100 times. *)
Lemma polls_read_at_most_100_times_witness :
  let s := Sim.power_up true 0 [(61, 1)] 5000 in
  exists s',
    waitForDNRdataNotReady (Sim.sim_board true) Sim.registers 200 s
    = Some (false, s') /\
    (100 <= length (new_ops _ s s') <= 100)%nat.
Proof.
  intros s.
  destruct (waitForDNRdataNotReady (Sim.sim_board true) Sim.registers 200 s)
    as [[[|] s'] |] eqn:E;
    [vm_compute in E; discriminate E | | vm_compute in E; discriminate E].
  exists s'. split; [reflexivity |]. split.
  - vm_compute in E. inversion E. vm_compute. apply le_n.
  - exact (proj1 (polls_read_at_most_100_times (Sim.sim_board true)
                    Sim.registers (sim_steady_clock true Sim.registers)
                    200 s s' false) E).
Defined.

(** ** The last second before the clock wraps *)

(** X9. When the 32-bit millisecond count is less than 1000 ms from
    wrapping, [millis() + 1000] wraps below the current count: each poll
    reports a timeout at once, without reading its register. *)
Theorem polls_give_up_before_clock_wrap :
  forall (B : Board) (R : RegisterMap),
    steady_clock B R ->
    forall (fuel : nat) (s : Sys B),
      2 ^ 32 <= u32 (fst (millis B (board s))) + 1000 ->
      (exists s', waitForDNRdataNotReady B R (S fuel) s = Some (false, s') /\
                  new_ops B s s' = [] /\ board s' = board s) /\
      (exists s', waitforModelCFGrefreshReady B R (S fuel) s = Some (false, s') /\
                  new_ops B s s' = [] /\ board s' = board s).
Proof.
  intros B R Steady fuel s Hwrap.
  pose proof (clock_pure _ _ Steady (board s)) as Hpure.
  assert (Hnow : 0 <= u32 (fst (millis B (board s))) < 2 ^ 32)
    by (unfold u32; apply Z.mod_pos_bound; lia).
  assert (Hlate : (u32 (fst (millis B (board s)))
                   <? u32 (u32 (fst (millis B (board s))) + 1000)) = false).
  { apply Z.ltb_ge. unfold u32 at 1.
    rewrite <- (Z.mod_unique (u32 (fst (millis B (board s))) + 1000) (2 ^ 32) 1
                  (u32 (fst (millis B (board s))) + 1000 - 2 ^ 32)); lia. }
  split.
  - unfold waitForDNRdataNotReady, ask_board.
    destruct (millis B (board s)) as [now h0] eqn:Enow.
    cbn [fst snd] in *. subst h0.
    cbn [waitForDNR_loop]. unfold ask_board. cbn [board]. rewrite Enow, Hlate.
    eexists. split; [reflexivity |]. cbn [board].
    split; [| reflexivity]. apply new_ops_app. cbn [log].
    symmetry. apply app_nil_r.
  - unfold waitforModelCFGrefreshReady, ask_board.
    destruct (millis B (board s)) as [now h0] eqn:Enow.
    cbn [fst snd] in *. subst h0.
    cbn [waitforModelCFG_loop]. unfold ask_board. cbn [board]. rewrite Enow, Hlate.
    eexists. split; [reflexivity |]. cbn [board].
    split; [| reflexivity]. apply new_ops_app. cbn [log].
    symmetry. apply app_nil_r.
Qed.

(** Data is ready (FStat reads 0), yet 296 ms before the wrap the poll
    reports a timeout. *)
Lemma polls_give_up_before_clock_wrap_witness :
  exists s',
    waitForDNRdataNotReady (Sim.sim_board true) Sim.registers 1
      (Sim.power_up true 0 [(61, 0)] 4294967000) = Some (false, s').
Proof.
  destruct (polls_give_up_before_clock_wrap (Sim.sim_board true) Sim.registers
              (sim_steady_clock true Sim.registers) 0
              (Sim.power_up true 0 [(61, 0)] 4294967000)) as [[s' [E _]] _].
  - vm_compute. discriminate.
  - exists s'. exact E.
Defined.

(** ** The writes of the configuration sequence *)









(** ** Refreshing twice *)

Lemma modelCfg_refreshed_retained (x y : Z) (r100 vChg : bool) (modelID : Z) :
  Z.land x 0x70FF = Z.land y 0x70FF ->
  modelCfg_refreshed x r100 vChg modelID = modelCfg_refreshed y r100 vChg modelID.
Proof. intros H. unfold modelCfg_refreshed. rewrite H. reflexivity. Qed.

Lemma modelCfg_refreshed_idempotent (w : Z) (r100 vChg : bool) (modelID : Z) :
  modelCfg_refreshed (modelCfg_refreshed w r100 vChg modelID) r100 vChg modelID
  = modelCfg_refreshed w r100 vChg modelID.
Proof.
  apply Z.bits_inj'. intros i Hi.
  rewrite modelCfg_refreshed_testbit.
  rewrite (modelCfg_refreshed_testbit w).
  destruct (Z.testbit w i), (Z.testbit 28927 i),
    (Z.testbit (Z.shiftl (Z.land modelID 15) 4) i), r100, (Z.testbit 8192 i),
    vChg, (Z.testbit 1024 i), (Z.testbit 32768 i); reflexivity.
Qed.

(** X12. [refreshModelCFG] is idempotent: the word it writes lies in
    0x8000..0xFFFF and depends only on bits 14-12 and 7-0 of the word
    read, so a second call that reads back a word agreeing in those bits
    with the one just written (the chip may have cleared the refresh
    bit meanwhile) writes the same word again. *)
Theorem refreshModelCFG_idempotent :
  forall (B : Board) (R : RegisterMap) (r100 vChg : bool) (modelID : Z)
         (s : Sys B),
    let written :=
      modelCfg_refreshed (fst (readReg16Bit B R (regModelCfg R) s))
                         r100 vChg modelID in
    let s1 := snd (refreshModelCFG B R r100 vChg modelID s) in
    let again := fst (readReg16Bit B R (regModelCfg R) s1) in
    Z.land again 0x70FF = Z.land written 0x70FF ->
    0x8000 <= written < 0x10000 /\
    new_ops B s1 (snd (refreshModelCFG B R r100 vChg modelID s1))
    = [RegRead (regModelCfg R) again; RegWrite (regModelCfg R) written].
Proof.
  intros B R r100 vChg modelID s written s1 again Hsame.
  assert (Hrange : 0x8000 <= written < 0x10000).
  { apply modelCfg_refreshed_range. unfold written.
    rewrite readReg16Bit_eq. apply reg_value_range. }
  split; [exact Hrange |].
  - assert (Hw : modelCfg_refreshed again r100 vChg modelID = written).
    { rewrite (modelCfg_refreshed_retained again written) by exact Hsame.
      unfold written. apply modelCfg_refreshed_idempotent. }
    apply new_ops_app.
    rewrite (refreshModelCFG_eq B R r100 vChg modelID s1).
    fold again. rewrite Hw, writeReg16Bit_eq. cbn [snd log].
    rewrite (u16_word written) by lia.
    unfold again. rewrite readReg16Bit_eq. cbn [fst snd log].
    rewrite <- app_assoc. reflexivity.
Qed.

(** The simulated chip hands the written word back unchanged. *)
Lemma refreshModelCFG_idempotent_witness :
  let s := Sim.power_up true 0 [(219, 0x0F0F)] 0 in
  let s1 := snd (refreshModelCFG (Sim.sim_board true) Sim.registers true false 3 s) in
  new_ops _ s1 (snd (refreshModelCFG (Sim.sim_board true) Sim.registers true false 3 s1))
  = [RegRead 219 0xA03F; RegWrite 219 0xA03F].
Proof.
  intros s s1.
  destruct (refreshModelCFG_idempotent (Sim.sim_board true) Sim.registers
              true false 3 s ltac:(vm_compute; reflexivity)) as [_ H].
  exact H.
Defined.

(** ** The sign of the current *)

Lemma binary_round_aux_sign_of (s : bool) (m : positive) (e : Z) :
  sign_of (binary_round_aux 24 128 s (Zpos m) e loc_Exact) = Some s.
Proof.
  pose proof (binary_round_aux_sign s (Zpos m) e loc_Exact) as H.
  pose proof (binary_round_aux_exact s m e) as Hn.
  destruct (binary_round_aux 24 128 s (Zpos m) e loc_Exact); cbn [sign_of];
    try (rewrite H; reflexivity).
  contradiction.
Qed.

Lemma of_int_sign_of (z : Z) : sign_of (F32.of_int z) = Some (z <? 0).
Proof.
  unfold F32.of_int, binary_normalize, F32.prec, F32.emax.
  destruct z as [| p | p]; [reflexivity | |];
    unfold binary_round;
    destruct (shl_align p 0 _) as [mz ez];
    apply binary_round_aux_sign_of.
Qed.

Lemma mul_sign_of (x y : float) (b : bool) :
  positive_finite y -> sign_of x = Some b -> sign_of (F32.mul x y) = Some b.
Proof.
  intros Hy Hx.
  destruct y as [sy | sy | | [|] my ey]; try contradiction.
  unfold F32.mul, F32.prec, F32.emax.
  destruct x as [sx | sx | | sx mx ex]; cbn [SFmul sign_of] in *;
    try discriminate Hx.
  - rewrite xorb_false_r. exact Hx.
  - rewrite xorb_false_r. exact Hx.
  - rewrite xorb_false_r, binary_round_aux_sign_of. exact Hx.
Qed.

Lemma int16_negative (raw : Z) :
  0 <= raw < 65536 -> (int16_of_u16 raw <? 0) = Z.testbit raw 15.
Proof.
  intros Hr. unfold int16_of_u16.
  destruct (Z.ltb_spec raw 32768) as [Hlt | Hge].
  - rewrite (testbit_above raw 15 15) by lia. apply Z.ltb_ge. lia.
  - assert (Hb : Z.b2z (Z.testbit raw 15) = 1).
    { rewrite Z.testbit_spec' by lia.
      replace (raw / 2 ^ 15) with 1; [reflexivity |].
      apply Z.div_unique with (r := raw - 32768); lia. }
    destruct (Z.testbit raw 15); [| discriminate Hb].
    apply Z.ltb_lt. lia.
Qed.

(** X13. With a multiplier that is finite and above zero, the sign of
    what [getCurrent] returns is bit 15 of the Current register: the
    register is taken as a two's-complement number, so readings from
    0x8000 up come out with the sign bit set and those below with it
    clear, also when the product rounds to zero or overflows. *)
Theorem getCurrent_sign :
  forall (B : Board) (R : RegisterMap) (s : Sys B),
    positive_finite (current_multiplier_mV (obj s)) ->
    sign_of (fst (getCurrent B R s))
    = Some (Z.testbit (fst (readReg16Bit B R (regCurrent R) s)) 15).
Proof.
  intros B R s Hm. unfold getCurrent, bind, this, ret.
  rewrite readReg16Bit_eq. cbn [fst snd obj].
  rewrite <- int16_negative by apply reg_value_range.
  apply mul_sign_of; [exact Hm | apply of_int_sign_of].
Qed.

(** A discharge reading, 0xFFF0, on the 10 mOhm resistor. *)
Lemma getCurrent_sign_witness :
  let s := snd (calcMultipliers (Sim.sim_board true) Sim.platform
                  (rSense Sim.driver)
                  (Sim.power_up true 0 [(10, 0xFFF0)] 0)) in
  sign_of (fst (getCurrent (Sim.sim_board true) Sim.registers s)) = Some true.
Proof.
  intros s.
  rewrite (getCurrent_sign (Sim.sim_board true) Sim.registers s
             ltac:(vm_compute; exact I)).
  reflexivity.
Defined.

(** ** Readings of unsigned registers *)

Lemma unsigned_reading_sign (raw : Z) (k : float) :
  0 <= raw -> positive_finite k ->
  sign_of (F32.mul (F32.of_int raw) k) = Some false.
Proof.
  intros Hraw Hk. apply mul_sign_of; [exact Hk |].
  rewrite of_int_sign_of. f_equal. apply Z.ltb_ge. exact Hraw.
Qed.

(** X14. The readings taken from unsigned registers are never negative:
    with multipliers that are finite and above zero, what [getVcell],
    [getAvgVCell], [getSOC] and [getCapacity_mAh] return has its sign bit
    clear (and is not NaN), whatever the register holds. *)
Theorem unsigned_readings_not_negative :
  forall (B : Board) (R : RegisterMap) (K : Scales) (s : Sys B),
    positive_finite (voltage_multiplier_V K) ->
    positive_finite (SOC_multiplier K) ->
    positive_finite (capacity_multiplier_mAH (obj s)) ->
    sign_of (fst (getVcell B R K s)) = Some false /\
    sign_of (fst (getAvgVCell B R K s)) = Some false /\
    sign_of (fst (getSOC B R K s)) = Some false /\
    sign_of (fst (getCapacity_mAh B R s)) = Some false.
Proof.
  intros B R K s HV HS HC.
  unfold getVcell, getAvgVCell, getSOC, getCapacity_mAh, bind, this, ret.
  rewrite !readReg16Bit_eq. cbn [fst snd obj].
  repeat split; apply unsigned_reading_sign;
    solve [apply reg_value_range | assumption].
Qed.

(** Registers that read 0xFFFF on the simulated chip. *)
Lemma unsigned_readings_not_negative_witness :
  let s := snd (calcMultipliers (Sim.sim_board true) Sim.platform
                  (rSense Sim.driver) (Sim.power_up true 0xFFFF [] 0)) in
  sign_of (fst (getVcell (Sim.sim_board true) Sim.registers Sim.scales s))
  = Some false.
Proof.
  intros s.
  apply (unsigned_readings_not_negative (Sim.sim_board true) Sim.registers
           Sim.scales s); vm_compute; exact I.
Defined.

(** ** Rounding a quotient *)

Lemma Zdigits2_nonneg (m : Z) : 0 <= Zdigits2 m.
Proof. destruct m; cbn [Zdigits2]; lia. Qed.















(** * The multipliers and the sense resistance *)

(** ** Rounding to nearest is monotone *)

Lemma rne_bounds (N D : Z) : N / D <= rne N D <= N / D + 1.
Proof. apply round_nearest_even_near. Qed.

Lemma rne_mono (N1 D1 N2 D2 : Z) :
  0 < D1 -> 0 < D2 -> N1 * D2 <= N2 * D1 -> rne N1 D1 <= rne N2 D2.
Proof.
  intros HD1 HD2 Hle.
  pose proof (Z.div_mod N1 D1 ltac:(lia)) as E1.
  pose proof (Z.mod_pos_bound N1 D1 HD1) as B1.
  pose proof (Z.div_mod N2 D2 ltac:(lia)) as E2.
  pose proof (Z.mod_pos_bound N2 D2 HD2) as B2.
  pose proof (rne_bounds N1 D1) as R1.
  pose proof (rne_bounds N2 D2) as R2.
  assert (Hq : N1 / D1 <= N2 / D2).
  { destruct (Z.le_gt_cases (N1 / D1) (N2 / D2)) as [| Hgt]; [assumption |].
    exfalso.
    assert (H1 : D1 * (N2 / D2 + 1) <= D1 * (N1 / D1))
      by (apply Z.mul_le_mono_nonneg_l; lia).
    assert (H2 : N2 * D1 < D2 * (N2 / D2 + 1) * D1)
      by (apply Z.mul_lt_mono_pos_r; lia).
    assert (H3 : D1 * (N1 / D1) * D2 <= N1 * D2)
      by (apply Z.mul_le_mono_nonneg_r; lia).
    assert (H4 : D1 * (N2 / D2 + 1) * D2 <= D1 * (N1 / D1) * D2)
      by (apply Z.mul_le_mono_nonneg_r; lia).
    lia. }
  destruct (Z.eq_dec (N1 / D1) (N2 / D2)) as [Eq | Hne]; [| lia].
  (* same integer part: the rests are ordered *)
  set (q := N1 / D1) in *. rewrite <- Eq in *.
  set (r1 := N1 mod D1) in *. set (r2 := N2 mod D2) in *.
  assert (Hr : r1 * D2 <= r2 * D1).
  { rewrite E1, E2 in Hle. lia. }
  unfold rne. fold q. rewrite <- Eq. fold r1 r2. unfold loc_of.
  destruct (Z.eqb_spec r1 0) as [Z1 | NZ1].
  - cbn [round_nearest_even]. pose proof (round_nearest_even_near q
      (if r2 =? 0 then loc_Exact else loc_Inexact (2 * r2 ?= D2))). lia.
  - assert (Hr2 : r2 <> 0) by (intros Z2; rewrite Z2 in Hr; nia).
    destruct (Z.eqb_spec r2 0) as [| _]; [contradiction |].
    destruct (Z.compare_spec (2 * r1) D1) as [C1 | C1 | C1];
      destruct (Z.compare_spec (2 * r2) D2) as [C2 | C2 | C2];
      cbn [round_nearest_even]; try (destruct (Z.even q)); try lia;
      exfalso; nia.
Qed.

(** ** The shifts keep track of the rest *)

Lemma loc_record (m : Z) (l : location) :
  loc_of_shr_record (shr_record_of_loc m l) = l.
Proof. destruct l as [| []]; reflexivity. Qed.

Lemma loc_of_exact (r D : Z) : loc_of r D = loc_Exact <-> r = 0.
Proof.
  unfold loc_of. destruct (Z.eqb_spec r 0); split; intros H;
    try reflexivity; try assumption; try discriminate; contradiction.
Qed.

Lemma shr_1_halves (mrs : shr_record) :
  0 <= shr_m mrs ->
  shr_m (shr_1 mrs) = shr_m mrs / 2 /\
  shr_r (shr_1 mrs) = Z.odd (shr_m mrs) /\
  shr_s (shr_1 mrs) = (shr_r mrs || shr_s mrs)%bool.
Proof.
  destruct mrs as [m r s]. cbn [shr_m shr_r shr_s]. intros Hm.
  destruct m as [| [p | p |] | p]; cbn [shr_1 shr_m shr_r shr_s];
    try lia; repeat split; try reflexivity.
  - apply Z.div_unique with (r := 1); lia.
  - apply Z.div_unique with (r := 0); lia.
Qed.

Lemma inbetween_shr_1 (mrs : shr_record) (N D : Z) :
  inbetween (shr_m mrs) (loc_of_shr_record mrs) N D ->
  inbetween (shr_m (shr_1 mrs)) (loc_of_shr_record (shr_1 mrs)) N (2 * D).
Proof.
  intros [HD [HN [Hm Hl]]].
  assert (Hm0 : 0 <= shr_m mrs) by (rewrite Hm; apply Z.div_pos; lia).
  destruct (shr_1_halves mrs Hm0) as [Em [Er Es]].
  pose proof (Z.div_mod N D ltac:(lia)) as EN.
  pose proof (Z.mod_pos_bound N D HD) as BN.
  rewrite <- Hm in EN.
  set (m := shr_m mrs) in *. set (rho := N mod D) in *.
  pose proof (Z.div_mod m 2 ltac:(lia)) as E2.
  pose proof (Z.mod_pos_bound m 2 ltac:(lia)) as B2.
  assert (Hodd : Z.odd m = negb (m mod 2 =? 0)).
  { rewrite Zmod_odd. destruct (Z.odd m); reflexivity. }
  assert (Hq : N / (2 * D) = m / 2).
  { symmetry. apply Z.div_unique with (r := D * (m mod 2) + rho); nia. }
  assert (Hrem : N mod (2 * D) = D * (m mod 2) + rho).
  { symmetry. apply Z.mod_unique with (q := m / 2); nia. }
  assert (Hexact : (shr_r mrs || shr_s mrs)%bool = negb (rho =? 0)).
  { unfold loc_of in Hl. destruct mrs as [m' [|] [|]];
      cbn [loc_of_shr_record shr_r shr_s orb] in *;
      destruct (rho =? 0); try reflexivity; discriminate Hl. }
  split; [lia |]. split; [exact HN |]. split; [rewrite Em, Hq; reflexivity |].
  rewrite Hrem. unfold loc_of.
  destruct (shr_1 mrs) as [m1 r1 s1]. cbn [shr_m shr_r shr_s] in *.
  subst r1 s1. rewrite Hodd, Hexact. cbn [loc_of_shr_record].
  destruct (Z.eqb_spec (m mod 2) 0) as [Eb | Nb];
    destruct (Z.eqb_spec rho 0) as [Er0 | Nr0]; cbn [negb].
  - rewrite Eb, Er0. replace (D * 0 + 0) with 0 by lia. reflexivity.
  - rewrite Eb. replace (D * 0 + rho) with rho by lia.
    destruct (Z.eqb_spec rho 0); [contradiction |].
    replace (2 * rho ?= 2 * D) with Lt; [reflexivity |].
    symmetry. apply Z.compare_lt_iff. lia.
  - assert (Eb1 : m mod 2 = 1) by lia. rewrite Eb1, Er0.
    replace (D * 1 + 0) with D by lia.
    destruct (Z.eqb_spec D 0); [lia |].
    rewrite Z.compare_refl. reflexivity.
  - assert (Eb1 : m mod 2 = 1) by lia. rewrite Eb1.
    destruct (Z.eqb_spec (D * 1 + rho) 0); [lia |].
    replace (2 * (D * 1 + rho) ?= 2 * D) with Gt; [reflexivity |].
    symmetry. apply Z.compare_gt_iff. lia.
Qed.

Lemma inbetween_iter_shr (p : positive) :
  forall (mrs : shr_record) (N D : Z),
    inbetween (shr_m mrs) (loc_of_shr_record mrs) N D ->
    inbetween (shr_m (iter_pos shr_1 p mrs))
              (loc_of_shr_record (iter_pos shr_1 p mrs)) N (D * 2 ^ Zpos p).
Proof.
  induction p as [p IH | p IH |]; intros mrs N D H; cbn [iter_pos].
  - apply inbetween_shr_1 in H. apply IH in H. apply IH in H.
    replace (D * 2 ^ Zpos p~1) with (2 * D * 2 ^ Zpos p * 2 ^ Zpos p);
      [exact H |].
    replace (Zpos p~1) with (1 + Zpos p + Zpos p) by lia.
    rewrite !Z.pow_add_r by lia. change (2 ^ 1) with 2. ring.
  - apply IH in H. apply IH in H.
    replace (D * 2 ^ Zpos p~0) with (D * 2 ^ Zpos p * 2 ^ Zpos p);
      [exact H |].
    replace (Zpos p~0) with (Zpos p + Zpos p) by lia.
    rewrite !Z.pow_add_r by lia. ring.
  - apply inbetween_shr_1 in H. change (2 ^ 1) with 2.
    replace (D * 2) with (2 * D) by lia. exact H.
Qed.

(** The first shift of [binary_round_aux], for any format. *)
Lemma shr_fexp_inbetween (prec emax m e : Z) (l : location) (N D : Z) :
  inbetween m l N D ->
  let E := Z.max e (fexp prec emax (Zdigits2 m + e)) in
  snd (shr_fexp prec emax m e l) = E /\
  inbetween (shr_m (fst (shr_fexp prec emax m e l)))
            (loc_of_shr_record (fst (shr_fexp prec emax m e l)))
            N (D * 2 ^ (E - e)).
Proof.
  intros H E. unfold shr_fexp, shr.
  assert (H0 : inbetween (shr_m (shr_record_of_loc m l))
                 (loc_of_shr_record (shr_record_of_loc m l)) N D)
    by (rewrite shr_m_of_loc, loc_record; exact H).
  destruct (fexp prec emax (Zdigits2 m + e) - e) as [| p | p] eqn:Ek;
    cbn [fst snd].
  - assert (EE : E = e) by (unfold E; lia). rewrite EE.
    replace (e - e) with 0 by lia. rewrite Z.mul_1_r. split; [reflexivity | exact H0].
  - assert (EE : E = e + Zpos p) by (unfold E; lia). rewrite EE.
    replace (e + Zpos p - e) with (Zpos p) by lia.
    split; [reflexivity | apply inbetween_iter_shr; exact H0].
  - assert (EE : E = e) by (unfold E; lia). rewrite EE.
    replace (e - e) with 0 by lia. rewrite Z.mul_1_r. split; [reflexivity | exact H0].
Qed.

(** ** What [binary_round_aux] returns, by rank *)

Lemma Zdigits2_upper (m : Z) : 0 <= m -> m < 2 ^ Zdigits2 m.
Proof.
  destruct m as [| p | p]; try lia; intros _; cbn [Zdigits2].
  - reflexivity.
  - apply (digits2_pos_bounds p).
Qed.

Lemma Zdigits2_le (m n : Z) : 0 <= n -> 0 <= m < 2 ^ n -> Zdigits2 m <= n.
Proof.
  intros Hn Hm. destruct (Z.eq_dec m 0) as [-> | Hne]; [cbn; lia |].
  pose proof (Zdigits2_bounds m ltac:(lia)) as Hlow.
  destruct (Z.le_gt_cases (Zdigits2 m) n) as [| Hgt]; [assumption |].
  assert (2 ^ n <= 2 ^ (Zdigits2 m - 1)) by (apply Z.pow_le_mono_r; lia).
  lia.
Qed.

Lemma Zdigits2_pow2 (n : Z) : 0 <= n -> Zdigits2 (2 ^ n) = n + 1.
Proof.
  intros Hn.
  assert (Hpos : 0 < 2 ^ n) by (apply Z.pow_pos_nonneg; lia).
  pose proof (Zdigits2_bounds (2 ^ n) Hpos) as Hlow.
  pose proof (Zdigits2_upper (2 ^ n) ltac:(lia)) as Hup.
  pose proof (Zdigits2_nonneg (2 ^ n)) as Hd.
  apply Z.pow_lt_mono_r_iff in Hup; [| lia | lia].
  destruct (Z.le_gt_cases (Zdigits2 (2 ^ n) - 1) n) as [| Hgt]; [lia |].
  assert (2 ^ (n + 1) <= 2 ^ (Zdigits2 (2 ^ n) - 1))
    by (apply Z.pow_le_mono_r; lia).
  rewrite Z.pow_add_r in H by lia. change (2 ^ 1) with 2 in H. lia.
Qed.

Section Rounding.

Variables prec emax : Z.
Hypothesis Hprec : 1 <= prec.
Hypothesis Hemax : 2 <= emax.

Lemma binary_round_aux_ranked (m e : Z) (l : location) (N D : Z) :
  inbetween m l N D ->
  e <= fexp prec emax (Zdigits2 m + e) ->
  ranked prec emax (binary_round_aux prec emax false m e l)
    (rank_of prec emax (fexp prec emax (Zdigits2 m + e))
       (rne N (D * 2 ^ (fexp prec emax (Zdigits2 m + e) - e)))).
Proof.
  intros Hin Hpre.
  set (E := fexp prec emax (Zdigits2 m + e)) in *.
  assert (HEmin : emin prec emax <= E) by (unfold E, fexp; lia).
  assert (HEdig : Zdigits2 m + e - prec <= E) by (unfold E, fexp; lia).
  assert (HEcase : E = emin prec emax \/ E = Zdigits2 m + e - prec)
    by (unfold E, fexp; lia).
  pose proof Hin as [HD [HN [Hm _]]].
  assert (Hm0 : 0 <= m) by (rewrite Hm; apply Z.div_pos; lia).
  pose proof (Zdigits2_nonneg m) as Hd0.
  pose proof (Zdigits2_upper m Hm0) as Hmup.
  unfold binary_round_aux.
  destruct (shr_fexp_inbetween prec emax m e l N D Hin) as [He1 Hin1].
  fold E in He1, Hin1. rewrite Z.max_r in He1, Hin1 by exact Hpre.
  destruct (shr_fexp prec emax m e l) as [mrs1 e1]. cbn [fst snd] in He1, Hin1.
  subst e1.
  assert (PK : 0 < 2 ^ (E - e)) by (apply Z.pow_pos_nonneg; lia).
  set (D' := D * 2 ^ (E - e)) in *.
  assert (HD' : 0 < D') by (unfold D'; nia).
  destruct Hin1 as [_ [_ [Hm1 Hl1]]].
  assert (HI : round_nearest_even (shr_m mrs1) (loc_of_shr_record mrs1)
               = rne N D') by (unfold rne; rewrite Hm1, Hl1; reflexivity).
  rewrite HI. set (I := rne N D') in *.
  pose proof (rne_bounds N D') as HIb. fold I in HIb.
  assert (HF : N / D' = m / 2 ^ (E - e)).
  { unfold D'. rewrite <- Z.div_div by lia. rewrite <- Hm. reflexivity. }
  rewrite HF in HIb.
  set (F := m / 2 ^ (E - e)) in *.
  assert (HF0 : 0 <= F) by (apply Z.div_pos; lia).
  assert (P2 : 0 < 2 ^ (prec - 1)) by (apply Z.pow_pos_nonneg; lia).
  assert (Hpp : 2 ^ prec = 2 * 2 ^ (prec - 1)).
  { replace prec with (1 + (prec - 1)) at 1 by lia.
    rewrite Z.pow_add_r by lia. reflexivity. }
  assert (HFup : F < 2 ^ prec).
  { apply Z.div_lt_upper_bound; [lia |].
    rewrite <- Z.pow_add_r by lia.
    apply Z.lt_le_trans with (1 := Hmup).
    apply Z.pow_le_mono_r; lia. }
  assert (HFlow : emin prec emax < E -> 2 ^ (prec - 1) <= F).
  { intros Hgt. assert (EE : E = Zdigits2 m + e - prec) by lia.
    assert (Hmpos : 0 < m).
    { destruct (Z.eq_dec m 0) as [Z0 | ]; [| lia].
      rewrite Z0 in EE. cbn [Zdigits2] in EE. lia. }
    unfold F. replace (E - e) with (Zdigits2 m - prec) by lia.
    apply (div_pow2_big m (Zdigits2 m) prec);
      [lia | lia | exact (Zdigits2_bounds m Hmpos)]. }
  (* the second shift *)
  assert (Hin2 : inbetween I loc_Exact I 1).
  { repeat split; try lia.
    - symmetry. apply Z.div_1_r.
    - rewrite Z.mod_1_r. reflexivity. }
  destruct (shr_fexp_inbetween prec emax I E loc_Exact I 1 Hin2) as [He2 Hin2'].
  destruct (shr_fexp prec emax I E loc_Exact) as [mrs2 e2].
  cbn [fst snd] in He2, Hin2'. destruct Hin2' as [_ [_ [Hm2 _]]].
  rewrite Z.mul_1_l, <- He2 in Hm2.
  destruct (Z.eq_dec I (2 ^ prec)) as [Icarry | Inocarry].
  - (* the mantissa carried into the next binade *)
    assert (Hdig : Zdigits2 I = prec + 1)
      by (rewrite Icarry; apply Zdigits2_pow2; lia).
    assert (E2 : e2 = E + 1) by (rewrite He2, Hdig; unfold fexp; lia).
    assert (Hm2' : shr_m mrs2 = 2 ^ (prec - 1)).
    { rewrite Hm2, E2, Icarry. replace (E + 1 - E) with 1 by lia.
      change (2 ^ 1) with 2. rewrite Hpp.
      rewrite Z.mul_comm. apply Z.div_mul. lia. }
    rewrite Hm2'.
    destruct (2 ^ (prec - 1)) as [| p | p] eqn:Ep; try lia.
    destruct (Z.leb_spec e2 (emax - prec)) as [Hfin | Hinf];
      cbn [ranked]; unfold rank_of, top_rank in *.
    + split; [lia |]. split; [lia |]. split; [right; lia |]. nia.
    + nia.
  - assert (HIup : I < 2 ^ prec) by lia.
    assert (Hdig : Zdigits2 I <= prec)
      by (apply Zdigits2_le; lia).
    assert (E2 : e2 = E) by (rewrite He2; unfold fexp; lia).
    assert (Hm2' : shr_m mrs2 = I).
    { rewrite Hm2, E2. replace (E - E) with 0 by lia. apply Z.div_1_r. }
    rewrite Hm2'.
    destruct I as [| p | p] eqn:EI; try lia.
    + cbn [ranked]. unfold rank_of.
      destruct (Z.eq_dec E (emin prec emax)) as [-> | Hne]; [lia |].
      specialize (HFlow ltac:(lia)). lia.
    + destruct (Z.leb_spec e2 (emax - prec)) as [Hfin | Hinf];
        cbn [ranked]; unfold rank_of, top_rank in *.
      * split; [lia |]. split; [lia |]. split; [| lia].
        destruct (Z.eq_dec E (emin prec emax)) as [| Hne]; [left; lia |].
        right. specialize (HFlow ltac:(lia)). lia.
      * assert (Hgt : emin prec emax < E) by (unfold emin in *; lia).
        specialize (HFlow Hgt). subst e2. nia.
Qed.

End Rounding.

Lemma pow2_split (a b : Z) : 0 <= a -> 0 <= b -> 2 ^ (a + b) = 2 ^ a * 2 ^ b.
Proof. intros. apply Z.pow_add_r; assumption. Qed.

Section Order.

Variables prec emax : Z.
Hypothesis Hprec : 1 <= prec.
Hypothesis Hemax : 2 <= emax.

Lemma half_pos : 0 < 2 ^ (prec - 1).
Proof. apply Z.pow_pos_nonneg; lia. Qed.

Lemma pow_prec : 2 ^ prec = 2 * 2 ^ (prec - 1).
Proof.
  replace prec with (1 + (prec - 1)) at 1 by lia.
  rewrite Z.pow_add_r by lia. reflexivity.
Qed.

Lemma emin_le : emin prec emax <= emax - prec.
Proof. unfold emin. lia. Qed.

Lemma ranked_nonneg (f : spec_float) (rho : Z) :
  ranked prec emax f rho -> 0 <= rho.
Proof.
  pose proof half_pos as HP. pose proof emin_le as He.
  destruct f as [[|] | [|] | | [|] m e]; cbn [ranked]; try contradiction.
  - lia.
  - unfold top_rank. intros H.
    apply Z.le_trans with (2 := H). nia.
  - unfold rank_of. intros [H1 [H2 [H3 ->]]]. nia.
Qed.

Lemma ranked_finite_range (m : positive) (e rho : Z) :
  ranked prec emax (S754_finite false m e) rho ->
  1 <= rho < top_rank prec emax.
Proof.
  pose proof half_pos as HP. pose proof pow_prec as Hpp.
  cbn [ranked]. unfold rank_of, top_rank. intros [H1 [H2 [H3 ->]]].
  split; nia.
Qed.

Lemma ranked_zero : ranked prec emax (S754_zero false) 0.
Proof. reflexivity. Qed.

Lemma ranked_infinity (rho : Z) :
  top_rank prec emax <= rho -> ranked prec emax (S754_infinity false) rho.
Proof. intros H. exact H. Qed.

Lemma fle_bottom (f : spec_float) (rho : Z) :
  ranked prec emax f rho -> fle prec emax (S754_zero false) f.
Proof.
  intros H. exists 0, rho. split; [reflexivity |].
  split; [exact H | exact (ranked_nonneg _ _ H)].
Qed.

Lemma fle_top (f : spec_float) (rho : Z) :
  ranked prec emax f rho -> fle prec emax f (S754_infinity false).
Proof.
  intros H. exists rho, (Z.max rho (top_rank prec emax)).
  split; [exact H |]. split; [cbn [ranked]; lia | lia].
Qed.

(** The order of the places is the order [SFleb] computes. *)
Lemma fle_SFleb (f1 f2 : spec_float) :
  fle prec emax f1 f2 -> SFleb f1 f2 = true.
Proof.
  intros [rho1 [rho2 [H1 [H2 Hle]]]].
  pose proof half_pos as HP. pose proof pow_prec as Hpp.
  destruct f1 as [[|] | [|] | | [|] m1 e1]; try contradiction;
    destruct f2 as [[|] | [|] | | [|] m2 e2]; try contradiction;
    try reflexivity.
  - (* infinity against zero *)
    cbn [ranked] in H1, H2. pose proof emin_le. unfold top_rank in H1.
    exfalso. nia.
  - apply ranked_finite_range in H2. cbn [ranked] in H1. lia.
  - apply ranked_finite_range in H1. cbn [ranked] in H2. lia.
  - cbn [ranked] in H1, H2. unfold rank_of in *.
    destruct H1 as [A1 [B1 [C1 ->]]]. destruct H2 as [A2 [B2 [C2 ->]]].
    unfold SFleb, SFcompare.
    destruct (Z.compare_spec e1 e2) as [Ee | Elt | Egt]; [| reflexivity |].
    + subst e2. rewrite Pos.compare_cont_spec. cbn [Pos.switch_Eq].
      assert (Hm : (m1 <= m2)%positive) by lia.
      unfold Pos.le in Hm. destruct (m1 ?= m2)%positive;
        [reflexivity | reflexivity | contradiction Hm; reflexivity].
    + exfalso.
      assert (2 ^ (prec - 1) <= Zpos m1) by lia.
      assert ((e2 - emin prec emax + 1) * 2 ^ (prec - 1)
              <= (e1 - emin prec emax) * 2 ^ (prec - 1))
        by (apply Z.mul_le_mono_nonneg_r; lia).
      lia.
Qed.

(** What the order of the places says about the values. *)
Lemma ranked_value_le (m1 m2 : positive) (e1 e2 rho1 rho2 : Z) :
  ranked prec emax (S754_finite false m1 e1) rho1 ->
  ranked prec emax (S754_finite false m2 e2) rho2 ->
  rho1 <= rho2 ->
  emin prec emax <= e1 /\ emin prec emax <= e2 /\
  Zpos m1 * 2 ^ (e1 - emin prec emax) <= Zpos m2 * 2 ^ (e2 - emin prec emax).
Proof.
  cbn [ranked]. unfold rank_of.
  intros [A1 [B1 [C1 ->]]] [A2 [B2 [C2 ->]]] Hle.
  pose proof half_pos as HP. pose proof pow_prec as Hpp.
  split; [lia |]. split; [lia |].
  destruct (Z.compare_spec e1 e2) as [Ee | Elt | Egt].
  - subst e2.
    apply Z.mul_le_mono_nonneg_r; [apply Z.pow_nonneg; lia | lia].
  - assert (Hm2 : 2 ^ (prec - 1) <= Zpos m2) by lia.
    replace (e2 - emin prec emax)
      with ((e1 - emin prec emax) + 1 + (e2 - e1 - 1)) by lia.
    rewrite !Z.pow_add_r by lia. change (2 ^ 1) with 2.
    assert (P1 : 0 < 2 ^ (e1 - emin prec emax)) by (apply Z.pow_pos_nonneg; lia).
    assert (P2 : 0 < 2 ^ (e2 - e1 - 1)) by (apply Z.pow_pos_nonneg; lia).
    assert (H1 : Zpos m1 * 2 ^ (e1 - emin prec emax)
                 <= 2 * 2 ^ (prec - 1) * 2 ^ (e1 - emin prec emax))
      by (apply Z.mul_le_mono_nonneg_r; lia).
    assert (H2 : 2 * 2 ^ (prec - 1) * 2 ^ (e1 - emin prec emax)
                 <= Zpos m2 * (2 ^ (e1 - emin prec emax) * 2)) by nia.
    assert (H3 : Zpos m2 * (2 ^ (e1 - emin prec emax) * 2) * 1
                 <= Zpos m2 * (2 ^ (e1 - emin prec emax) * 2) * 2 ^ (e2 - e1 - 1))
      by (apply Z.mul_le_mono_nonneg_l; nia).
    lia.
  - exfalso.
    assert (2 ^ (prec - 1) <= Zpos m1) by lia.
    assert ((e2 - emin prec emax + 1) * 2 ^ (prec - 1)
            <= (e1 - emin prec emax) * 2 ^ (prec - 1))
      by (apply Z.mul_le_mono_nonneg_r; lia).
    lia.
Qed.

End Order.

Section Monotone.

Variables prec emax : Z.
Hypothesis Hprec : 1 <= prec.
Hypothesis Hemax : 2 <= emax.

(** The integer part of the scaled quotient fits the mantissa, and fills
    it above the smallest exponent. *)
Lemma scaled_quotient_bounds (m e : Z) (l : location) (N D : Z) :
  inbetween m l N D ->
  e <= fexp prec emax (Zdigits2 m + e) ->
  let E := fexp prec emax (Zdigits2 m + e) in
  let I := rne N (D * 2 ^ (E - e)) in
  0 <= I <= 2 ^ prec /\
  (emin prec emax < E ->
   2 ^ (prec - 1) <= I /\ 0 < m /\ E = Zdigits2 m + e - prec).
Proof.
  intros Hin Hpre E I.
  assert (HEmin : emin prec emax <= E) by (unfold E, fexp; lia).
  assert (HEdig : Zdigits2 m + e - prec <= E) by (unfold E, fexp; lia).
  assert (HEcase : E = emin prec emax \/ E = Zdigits2 m + e - prec)
    by (unfold E, fexp; lia).
  destruct Hin as [HD [HN [Hm _]]].
  assert (Hm0 : 0 <= m) by (rewrite Hm; apply Z.div_pos; lia).
  pose proof (Zdigits2_nonneg m) as Hd0.
  pose proof (Zdigits2_upper m Hm0) as Hmup.
  assert (PK : 0 < 2 ^ (E - e)) by (apply Z.pow_pos_nonneg; lia).
  pose proof (rne_bounds N (D * 2 ^ (E - e))) as HIb. fold I in HIb.
  assert (HF : N / (D * 2 ^ (E - e)) = m / 2 ^ (E - e)).
  { rewrite <- Z.div_div by lia. rewrite <- Hm. reflexivity. }
  rewrite HF in HIb.
  assert (HF0 : 0 <= m / 2 ^ (E - e)) by (apply Z.div_pos; lia).
  assert (HFup : m / 2 ^ (E - e) < 2 ^ prec).
  { apply Z.div_lt_upper_bound; [lia |].
    rewrite <- Z.pow_add_r by lia.
    apply Z.lt_le_trans with (1 := Hmup).
    apply Z.pow_le_mono_r; lia. }
  split; [lia |].
  intros Hgt. assert (EE : E = Zdigits2 m + e - prec) by lia.
  assert (Hmpos : 0 < m).
  { destruct (Z.eq_dec m 0) as [Z0 | ]; [| lia].
    rewrite Z0 in EE. cbn [Zdigits2] in EE. lia. }
  split; [| split; [exact Hmpos | exact EE]].
  apply Z.le_trans with (2 := proj1 HIb).
  replace (E - e) with (Zdigits2 m - prec) by lia.
  apply (div_pow2_big m (Zdigits2 m) prec);
    [lia | lia | exact (Zdigits2_bounds m Hmpos)].
Qed.

(** Rounding to nearest keeps the order: of two quotients
    (Na / Da) * 2^ea <= (Nb / Db) * 2^eb, the first is rounded to a
    place that is not beyond the place of the second. *)
Lemma rank_mono (ma ea : Z) (la : location) (Na Da : Z)
      (mb eb : Z) (lb : location) (Nb Db t : Z) :
  inbetween ma la Na Da ->
  ea <= fexp prec emax (Zdigits2 ma + ea) ->
  inbetween mb lb Nb Db ->
  eb <= fexp prec emax (Zdigits2 mb + eb) ->
  t <= ea -> t <= eb ->
  Na * Db * 2 ^ (ea - t) <= Nb * Da * 2 ^ (eb - t) ->
  rank_of prec emax (fexp prec emax (Zdigits2 ma + ea))
    (rne Na (Da * 2 ^ (fexp prec emax (Zdigits2 ma + ea) - ea)))
  <= rank_of prec emax (fexp prec emax (Zdigits2 mb + eb))
       (rne Nb (Db * 2 ^ (fexp prec emax (Zdigits2 mb + eb) - eb))).
Proof.
  intros Hina Hprea Hinb Hpreb Hta Htb Hval.
  destruct (scaled_quotient_bounds ma ea la Na Da Hina Hprea) as [HIa HFa].
  destruct (scaled_quotient_bounds mb eb lb Nb Db Hinb Hpreb) as [HIb HFb].
  set (Ea := fexp prec emax (Zdigits2 ma + ea)) in *.
  set (Eb := fexp prec emax (Zdigits2 mb + eb)) in *.
  set (Ia := rne Na (Da * 2 ^ (Ea - ea))) in *.
  set (Ib := rne Nb (Db * 2 ^ (Eb - eb))) in *.
  assert (HEa : emin prec emax <= Ea) by (unfold Ea, fexp; lia).
  assert (HEb : emin prec emax <= Eb) by (unfold Eb, fexp; lia).
  assert (HEbdig : Zdigits2 mb + eb - prec <= Eb) by (unfold Eb, fexp; lia).
  pose proof (half_pos prec Hprec) as HP.
  pose proof (pow_prec prec Hprec) as Hpp.
  destruct Hina as [HDa [HNa [Hma _]]]. destruct Hinb as [HDb [HNb [Hmb _]]].
  assert (Pa : 0 < 2 ^ (Ea - ea)) by (apply Z.pow_pos_nonneg; lia).
  assert (Pb : 0 < 2 ^ (Eb - eb)) by (apply Z.pow_pos_nonneg; lia).
  assert (Pta : 0 < 2 ^ (ea - t)) by (apply Z.pow_pos_nonneg; lia).
  assert (Ptb : 0 < 2 ^ (eb - t)) by (apply Z.pow_pos_nonneg; lia).
  unfold rank_of.
  destruct (Z.compare_spec Ea Eb) as [Eeq | Elt | Egt].
  - (* the same exponent: the mantissas are ordered *)
    assert (HI : Ia <= Ib).
    { unfold Ia, Ib. apply rne_mono; [nia | nia |].
      assert (Pt : 0 < 2 ^ (Ea - t)) by (apply Z.pow_pos_nonneg; lia).
      assert (Ha : 2 ^ (Ea - t) = 2 ^ (ea - t) * 2 ^ (Ea - ea))
        by (rewrite <- Z.pow_add_r by lia; f_equal; lia).
      assert (Hb : 2 ^ (Ea - t) = 2 ^ (eb - t) * 2 ^ (Eb - eb))
        by (rewrite <- Z.pow_add_r by lia; f_equal; lia).
      apply (Z.mul_le_mono_pos_r _ _ (2 ^ (Ea - t)) Pt).
      assert (L : Na * (Db * 2 ^ (Eb - eb)) * 2 ^ (Ea - t)
                  = Na * Db * 2 ^ (ea - t) * (2 ^ (Ea - ea) * 2 ^ (Eb - eb)))
        by (rewrite Ha; ring).
      assert (R : Nb * (Da * 2 ^ (Ea - ea)) * 2 ^ (Ea - t)
                  = Nb * Da * 2 ^ (eb - t) * (2 ^ (Ea - ea) * 2 ^ (Eb - eb)))
        by (rewrite Hb; ring).
      rewrite L, R.
      apply Z.mul_le_mono_nonneg_r; [nia | exact Hval]. }
    rewrite Eeq. lia.
  - (* a lower exponent: a lower place, whatever the mantissas *)
    destruct (HFb ltac:(lia)) as [HIb' _].
    assert ((Ea - emin prec emax + 1) * 2 ^ (prec - 1)
            <= (Eb - emin prec emax) * 2 ^ (prec - 1))
      by (apply Z.mul_le_mono_nonneg_r; lia).
    lia.
  - (* a higher exponent would be a higher value *)
    exfalso.
    destruct (HFa ltac:(lia)) as [_ [Hmapos EEa]].
    assert (Hmb0 : 0 <= mb) by (rewrite Hmb; apply Z.div_pos; lia).
    pose proof (Zdigits2_bounds ma Hmapos) as Hlow.
    pose proof (Zdigits2_upper mb Hmb0) as Hup.
    pose proof (Zdigits2_nonneg mb) as Hdb.
    pose proof (Z.div_mod Na Da ltac:(lia)) as ENa.
    pose proof (Z.mod_pos_bound Na Da HDa) as BNa.
    pose proof (Z.div_mod Nb Db ltac:(lia)) as ENb.
    pose proof (Z.mod_pos_bound Nb Db HDb) as BNb.
    rewrite <- Hma in ENa. rewrite <- Hmb in ENb.
    set (da := Zdigits2 ma) in *. set (db := Zdigits2 mb) in *.
    assert (Hd : db + eb <= da + ea - 1) by lia.
    (* Na >= 2^(da-1) * Da and Nb < 2^db * Db *)
    assert (H1 : 2 ^ (da - 1) * Da <= Na) by nia.
    assert (H2 : Nb < 2 ^ db * Db) by nia.
    assert (H3 : 2 ^ (da - 1) * Da * Db * 2 ^ (ea - t) <= Na * Db * 2 ^ (ea - t)).
    { apply Z.mul_le_mono_nonneg_r; [lia |].
      apply Z.mul_le_mono_nonneg_r; lia. }
    assert (H4 : Nb * Da * 2 ^ (eb - t) < 2 ^ db * Db * Da * 2 ^ (eb - t)).
    { apply Z.mul_lt_mono_pos_r; [lia |].
      apply Z.mul_lt_mono_pos_r; lia. }
    assert (H5 : 2 ^ db * 2 ^ (eb - t) <= 2 ^ (da - 1) * 2 ^ (ea - t)).
    { rewrite <- !Z.pow_add_r by lia. apply Z.pow_le_mono_r; lia. }
    assert (H6 : 2 ^ db * 2 ^ (eb - t) * (Da * Db)
                 <= 2 ^ (da - 1) * 2 ^ (ea - t) * (Da * Db))
      by (apply Z.mul_le_mono_nonneg_r; nia).
    nia.
Qed.

(** Rounding two quotients in order gives two floats in order. *)
Lemma binary_round_aux_mono (ma ea : Z) (la : location) (Na Da : Z)
      (mb eb : Z) (lb : location) (Nb Db t : Z) :
  inbetween ma la Na Da ->
  ea <= fexp prec emax (Zdigits2 ma + ea) ->
  inbetween mb lb Nb Db ->
  eb <= fexp prec emax (Zdigits2 mb + eb) ->
  t <= ea -> t <= eb ->
  Na * Db * 2 ^ (ea - t) <= Nb * Da * 2 ^ (eb - t) ->
  fle prec emax (binary_round_aux prec emax false ma ea la)
                (binary_round_aux prec emax false mb eb lb).
Proof.
  intros Hina Hprea Hinb Hpreb Hta Htb Hval.
  eexists _, _. split; [| split].
  - exact (binary_round_aux_ranked prec emax Hprec Hemax ma ea la Na Da Hina Hprea).
  - exact (binary_round_aux_ranked prec emax Hprec Hemax mb eb lb Nb Db Hinb Hpreb).
  - exact (rank_mono ma ea la Na Da mb eb lb Nb Db t
             Hina Hprea Hinb Hpreb Hta Htb Hval).
Qed.

End Monotone.

Lemma scale_pow (m e t t' : Z) :
  t' <= t -> t <= e -> m * 2 ^ (e - t') = m * 2 ^ (e - t) * 2 ^ (t - t').
Proof.
  intros H1 H2. replace (e - t') with ((e - t) + (t - t')) by lia.
  rewrite Z.pow_add_r by lia. ring.
Qed.

Lemma vle_at (m1 e1 m2 e2 t' : Z) :
  vle m1 e1 m2 e2 -> t' <= e1 -> t' <= e2 ->
  m1 * 2 ^ (e1 - t') <= m2 * 2 ^ (e2 - t').
Proof.
  intros [t [H1 [H2 H]]] H1' H2'.
  destruct (Z.le_gt_cases t' t) as [Hle | Hgt].
  - rewrite (scale_pow m1 e1 t t'), (scale_pow m2 e2 t t') by lia.
    apply Z.mul_le_mono_nonneg_r; [apply Z.pow_nonneg; lia | exact H].
  - rewrite (scale_pow m1 e1 t' t), (scale_pow m2 e2 t' t) in H by lia.
    apply Z.mul_le_mono_pos_r in H; [exact H |].
    apply Z.pow_pos_nonneg; lia.
Qed.

Lemma Zdigits2_unique (x n : Z) :
  2 ^ (n - 1) <= x < 2 ^ n -> 0 < x -> 0 <= n -> Zdigits2 x = n.
Proof.
  intros [Hlow Hup] Hx Hn.
  pose proof (Zdigits2_bounds x Hx) as Dlow.
  pose proof (Zdigits2_upper x ltac:(lia)) as Dup.
  pose proof (Zdigits2_nonneg x) as Dn.
  destruct (Z.lt_trichotomy (Zdigits2 x) n) as [Hlt | [Heq | Hgt]];
    [| exact Heq |].
  - assert (2 ^ Zdigits2 x <= 2 ^ (n - 1)) by (apply Z.pow_le_mono_r; lia). lia.
  - assert (2 ^ n <= 2 ^ (Zdigits2 x - 1)) by (apply Z.pow_le_mono_r; lia). lia.
Qed.

Lemma Zdigits2_shift (m k : Z) :
  0 < m -> 0 <= k -> Zdigits2 (m * 2 ^ k) = Zdigits2 m + k.
Proof.
  intros Hm Hk.
  pose proof (Zdigits2_bounds m Hm) as Dlow.
  pose proof (Zdigits2_upper m ltac:(lia)) as Dup.
  pose proof (Zdigits2_nonneg m) as Dn.
  assert (Dpos : 1 <= Zdigits2 m).
  { destruct (Z.le_gt_cases 1 (Zdigits2 m)) as [| H]; [assumption |].
    assert (E0 : Zdigits2 m = 0) by lia. rewrite E0 in Dup.
    change (2 ^ 0) with 1 in Dup. lia. }
  assert (PK : 0 < 2 ^ k) by (apply Z.pow_pos_nonneg; lia).
  apply Zdigits2_unique; [| nia | lia].
  replace (Zdigits2 m + k - 1) with ((Zdigits2 m - 1) + k) by lia.
  rewrite !Z.pow_add_r by lia. split; nia.
Qed.

Lemma Zdigits2_big (x n : Z) : 2 ^ (n - 1) <= x -> 1 <= n -> n <= Zdigits2 x.
Proof.
  intros Hlow Hn.
  assert (P : 0 < 2 ^ (n - 1)) by (apply Z.pow_pos_nonneg; lia).
  pose proof (Zdigits2_upper x ltac:(lia)) as Dup.
  pose proof (Zdigits2_nonneg x) as Dn.
  destruct (Z.le_gt_cases n (Zdigits2 x)) as [| Hgt]; [assumption |].
  assert (2 ^ Zdigits2 x <= 2 ^ (n - 1)) by (apply Z.pow_le_mono_r; lia). lia.
Qed.

Lemma shl_align_spec (mx : positive) (ex ex' : Z) :
  snd (shl_align mx ex ex') = Z.min ex ex' /\
  Zpos (fst (shl_align mx ex ex'))
  = Zpos mx * 2 ^ (ex - snd (shl_align mx ex ex')).
Proof.
  unfold shl_align.
  destruct (ex' - ex) as [| p | p] eqn:Ed; cbn [fst snd].
  - split; [lia |]. replace (ex - ex) with 0 by lia. change (2 ^ 0) with 1. lia.
  - split; [lia |]. replace (ex - ex) with 0 by lia. change (2 ^ 0) with 1. lia.
  - split; [lia |].
    change (Pos.iter xO mx p) with (shift_pos p mx).
    rewrite shift_pos_correct. change (Z.pow_pos 2 p) with (2 ^ Zpos p).
    replace (ex - ex') with (Zpos p) by lia. lia.
Qed.

Lemma inbetween_exact (m : Z) : 0 <= m -> inbetween m loc_Exact m 1.
Proof.
  intros Hm. repeat split; try lia.
  - symmetry. apply Z.div_1_r.
  - rewrite Z.mod_1_r. reflexivity.
Qed.

Section Stages.

Variables prec emax : Z.
Hypothesis Hprec : 1 <= prec.
Hypothesis Hemax : 2 <= emax.

(** The aligned mantissa [binary_round] hands to the rounding. *)
Lemma binary_round_input (m : positive) (e : Z) :
  exists mz ez,
    binary_round prec emax false m e
    = binary_round_aux prec emax false (Zpos mz) ez loc_Exact /\
    ez <= e /\
    Zpos mz = Zpos m * 2 ^ (e - ez) /\
    ez <= fexp prec emax (Zdigits2 (Zpos mz) + ez).
Proof.
  unfold binary_round.
  pose proof (shl_align_spec m e (fexp prec emax (Zpos (digits2_pos m) + e)))
    as [He Hm].
  destruct (shl_align m e (fexp prec emax (Zpos (digits2_pos m) + e)))
    as [mz ez]. cbn [fst snd] in He, Hm.
  exists mz, ez. split; [reflexivity |].
  split; [lia |]. split; [exact Hm |].
  rewrite Hm, Zdigits2_shift by lia.
  cbn [Zdigits2].
  replace (Zpos (digits2_pos m) + (e - ez) + ez)
    with (Zpos (digits2_pos m) + e) by lia.
  lia.
Qed.

Lemma binary_round_ranked (m : positive) (e : Z) :
  exists rho, ranked prec emax (binary_round prec emax false m e) rho.
Proof.
  destruct (binary_round_input m e) as [mz [ez [-> [_ [_ Hpre]]]]].
  eexists.
  exact (binary_round_aux_ranked prec emax Hprec Hemax (Zpos mz) ez loc_Exact
           (Zpos mz) 1 (inbetween_exact (Zpos mz) ltac:(lia)) Hpre).
Qed.

Lemma binary_round_mono (m1 : positive) (e1 : Z) (m2 : positive) (e2 : Z) :
  vle (Zpos m1) e1 (Zpos m2) e2 ->
  fle prec emax (binary_round prec emax false m1 e1)
                (binary_round prec emax false m2 e2).
Proof.
  intros Hv.
  destruct (binary_round_input m1 e1) as [mz1 [ez1 [-> [Hz1 [Hm1 Hpre1]]]]].
  destruct (binary_round_input m2 e2) as [mz2 [ez2 [-> [Hz2 [Hm2 Hpre2]]]]].
  apply (binary_round_aux_mono prec emax Hprec Hemax
           (Zpos mz1) ez1 loc_Exact (Zpos mz1) 1
           (Zpos mz2) ez2 loc_Exact (Zpos mz2) 1 (Z.min ez1 ez2));
    try (apply inbetween_exact; lia); try assumption; try lia.
  rewrite !Z.mul_1_r, Hm1, Hm2.
  pose proof (vle_at _ _ _ _ (Z.min ez1 ez2) Hv ltac:(lia) ltac:(lia)) as H.
  rewrite (scale_pow (Zpos m1) e1 ez1 (Z.min ez1 ez2)) in H by lia.
  rewrite (scale_pow (Zpos m2) e2 ez2 (Z.min ez1 ez2)) in H by lia.
  exact H.
Qed.

End Stages.

Lemma new_location_loc_of (D r : Z) :
  0 < D -> 0 <= r < D -> new_location D r = loc_of r D.
Proof.
  intros HD Hr. unfold new_location, new_location_even, new_location_odd, loc_of.
  destruct (Z.even D) eqn:Ev; [reflexivity |].
  destruct (r =? 0); [reflexivity |]. f_equal.
  assert (Hodd : Z.odd D = true) by (rewrite <- Z.negb_even, Ev; reflexivity).
  apply Z.odd_spec in Hodd. destruct Hodd as [k Hk].
  destruct (Z.compare_spec (2 * r + 1) D) as [C | C | C];
    destruct (Z.compare_spec (2 * r) D) as [C' | C' | C'];
    try reflexivity; exfalso; lia.
Qed.

Section Arithmetic.

Variables prec emax : Z.
Hypothesis Hprec : 1 <= prec.
Hypothesis Hemax : 2 <= emax.

(** The quotient [SFdiv] hands to the rounding, with the place of the
    rest. *)
Lemma SFdiv_core_inbetween (m1 m2 : positive) (e1 e2 : Z) :
  exists q e' l,
    SFdiv_core_binary prec emax (Zpos m1) e1 (Zpos m2) e2 = (q, e', l) /\
    e' <= e1 - e2 /\
    inbetween q l (Zpos m1 * 2 ^ (e1 - e2 - e')) (Zpos m2) /\
    e' <= fexp prec emax (Zdigits2 q + e').
Proof.
  unfold SFdiv_core_binary.
  set (d1 := Zdigits2 (Zpos m1)). set (d2 := Zdigits2 (Zpos m2)).
  set (e' := Z.min (fexp prec emax (d1 + e1 - (d2 + e2))) (e1 - e2)).
  assert (He' : e' <= e1 - e2) by (unfold e'; lia).
  assert (Hfe : e' <= fexp prec emax (d1 + e1 - (d2 + e2)))
    by (unfold e'; lia).
  unfold fexp in Hfe.
  assert (Hm' : match e1 - e2 - e' with
                | Z0 => Zpos m1
                | Zpos _ => Z.shiftl (Zpos m1) (e1 - e2 - e')
                | Zneg _ => 0
                end = Zpos m1 * 2 ^ (e1 - e2 - e')).
  { destruct (e1 - e2 - e') as [| p | p] eqn:Es.
    - change (2 ^ 0) with 1. lia.
    - apply Z.shiftl_mul_pow2. lia.
    - lia. }
  rewrite Hm'.
  set (A := Zpos m1 * 2 ^ (e1 - e2 - e')).
  assert (PS : 0 < 2 ^ (e1 - e2 - e')) by (apply Z.pow_pos_nonneg; lia).
  assert (HA : 0 <= A) by (unfold A; nia).
  assert (Hq : fst (Z.div_eucl A (Zpos m2)) = A / Zpos m2) by reflexivity.
  assert (Hr : snd (Z.div_eucl A (Zpos m2)) = A mod Zpos m2) by reflexivity.
  destruct (Z.div_eucl A (Zpos m2)) as [q r]. cbn [fst snd] in Hq, Hr.
  exists q, e', (new_location (Zpos m2) r).
  split; [reflexivity |]. split; [exact He' |].
  pose proof (Z.mod_pos_bound A (Zpos m2) ltac:(lia)) as Hmod.
  split.
  - split; [lia |]. split; [exact HA |]. split; [exact Hq |].
    rewrite Hr. apply new_location_loc_of; [lia | apply Z.mod_pos_bound; lia].
  - destruct (Z.le_gt_cases e' (emin prec emax)) as [Hlow | Hhigh];
      [unfold fexp; lia |].
    assert (Hbig : 2 ^ (prec - 1) <= q).
    { rewrite Hq.
      pose proof (digits2_pos_bounds m1) as [Hd1 _].
      pose proof (digits2_pos_bounds m2) as [_ Hd2].
      change (Zpos (digits2_pos m1)) with d1 in Hd1.
      change (Zpos (digits2_pos m2)) with d2 in Hd2.
      assert (Hd1pos : 0 < d1) by (unfold d1; cbn; lia).
      assert (Hd2pos : 0 < d2) by (unfold d2; cbn; lia).
      apply Z.div_le_lower_bound; [lia |].
      assert (Hpow : 2 ^ ((prec - 1) + d2) <= 2 ^ ((d1 - 1) + (e1 - e2 - e')))
        by (apply Z.pow_le_mono_r; lia).
      rewrite !Z.pow_add_r in Hpow by lia.
      unfold A.
      assert (P2 : 0 < 2 ^ (prec - 1)) by (apply Z.pow_pos_nonneg; lia).
      revert Hpow Hd1 Hd2 PS P2.
      generalize (2 ^ (e1 - e2 - e')) (2 ^ (prec - 1)) (2 ^ d2) (2 ^ (d1 - 1))
                 (Zpos m1) (Zpos m2).
      intros; nia. }
    pose proof (Zdigits2_big q prec Hbig Hprec). unfold fexp. lia.
Qed.

Lemma SFdiv_ranked (mc : positive) (ec : Z) (mw : positive) (ew : Z) :
  exists rho,
    ranked prec emax
      (SFdiv prec emax (S754_finite false mc ec) (S754_finite false mw ew)) rho.
Proof.
  cbn [SFdiv xorb].
  destruct (SFdiv_core_inbetween mc mw ec ew) as [q [e' [l [-> [_ [Hin Hpre]]]]]].
  eexists.
  exact (binary_round_aux_ranked prec emax Hprec Hemax q e' l _ _ Hin Hpre).
Qed.

(** A larger divisor gives a smaller quotient, after rounding too. *)
Lemma SFdiv_antitone_finite (mc : positive) (ec : Z)
      (m1 : positive) (e1 : Z) (m2 : positive) (e2 : Z) :
  vle (Zpos m1) e1 (Zpos m2) e2 ->
  fle prec emax
    (SFdiv prec emax (S754_finite false mc ec) (S754_finite false m2 e2))
    (SFdiv prec emax (S754_finite false mc ec) (S754_finite false m1 e1)).
Proof.
  intros Hv. cbn [SFdiv xorb].
  destruct (SFdiv_core_inbetween mc m2 ec e2)
    as [q2 [e2' [l2 [-> [He2 [Hin2 Hpre2]]]]]].
  destruct (SFdiv_core_inbetween mc m1 ec e1)
    as [q1 [e1' [l1 [-> [He1 [Hin1 Hpre1]]]]]].
  set (t := Z.min (Z.min e1' e2') (ec - e1 - e2 + Z.min e1 e2)).
  apply (binary_round_aux_mono prec emax Hprec Hemax
           q2 e2' l2 _ _ q1 e1' l1 _ _ t Hin2 Hpre2 Hin1 Hpre1);
    [unfold t; lia | unfold t; lia |].
  pose proof (vle_at _ _ _ _ (Z.min e1 e2) Hv ltac:(lia) ltac:(lia)) as H.
  set (u := Z.min e1 e2) in *.
  set (k := ec - e1 - e2 + u - t).
  assert (Hk : 0 <= k) by (unfold k, t; fold u; lia).
  assert (PK : 0 < 2 ^ k) by (apply Z.pow_pos_nonneg; lia).
  (* both sides, with the powers collected *)
  assert (L : Zpos mc * 2 ^ (ec - e2 - e2') * Zpos m1 * 2 ^ (e2' - t)
              = Zpos mc * (Zpos m1 * 2 ^ (e1 - u) * 2 ^ k)).
  { replace (Zpos mc * 2 ^ (ec - e2 - e2') * Zpos m1 * 2 ^ (e2' - t))
      with (Zpos mc * (Zpos m1 * (2 ^ (ec - e2 - e2') * 2 ^ (e2' - t)))) by ring.
    rewrite <- (Z.pow_add_r 2 (ec - e2 - e2')) by (unfold t; lia).
    replace (Zpos m1 * 2 ^ (e1 - u) * 2 ^ k)
      with (Zpos m1 * (2 ^ (e1 - u) * 2 ^ k)) by ring.
    rewrite <- (Z.pow_add_r 2 (e1 - u)) by (unfold u; lia).
    do 3 f_equal. unfold k. lia. }
  assert (R : Zpos mc * 2 ^ (ec - e1 - e1') * Zpos m2 * 2 ^ (e1' - t)
              = Zpos mc * (Zpos m2 * 2 ^ (e2 - u) * 2 ^ k)).
  { replace (Zpos mc * 2 ^ (ec - e1 - e1') * Zpos m2 * 2 ^ (e1' - t))
      with (Zpos mc * (Zpos m2 * (2 ^ (ec - e1 - e1') * 2 ^ (e1' - t)))) by ring.
    rewrite <- (Z.pow_add_r 2 (ec - e1 - e1')) by (unfold t; lia).
    replace (Zpos m2 * 2 ^ (e2 - u) * 2 ^ k)
      with (Zpos m2 * (2 ^ (e2 - u) * 2 ^ k)) by ring.
    rewrite <- (Z.pow_add_r 2 (e2 - u)) by (unfold u; lia).
    do 3 f_equal. unfold k. lia. }
  rewrite L, R.
  apply Z.mul_le_mono_nonneg_l; [lia |].
  apply Z.mul_le_mono_nonneg_r; [lia | exact H].
Qed.

(** The same over the whole order: zero divides to +infinity, +infinity
    to zero. *)
Lemma SFdiv_antitone (mc : positive) (ec : Z) (w1 w2 : spec_float) :
  fle prec emax w1 w2 ->
  fle prec emax (SFdiv prec emax (S754_finite false mc ec) w2)
                (SFdiv prec emax (S754_finite false mc ec) w1).
Proof.
  intros [rho1 [rho2 [H1 [H2 Hle]]]].
  destruct w1 as [[|] | [|] | | [|] m1 e1]; try contradiction;
    destruct w2 as [[|] | [|] | | [|] m2 e2]; try contradiction;
    cbn [SFdiv xorb].
  - (* zero, zero *)
    apply (fle_top prec emax) with (rho := top_rank prec emax). cbn [ranked]. lia.
  - (* zero, infinity *)
    apply (fle_bottom prec emax Hprec Hemax) with (rho := top_rank prec emax).
    cbn [ranked]. lia.
  - (* zero, finite *)
    destruct (SFdiv_ranked mc ec m2 e2) as [rho H]. cbn [SFdiv xorb] in H.
    exact (fle_top prec emax _ _ H).
  - (* infinity, zero *)
    exfalso. cbn [ranked] in H1, H2.
    pose proof (half_pos prec Hprec). pose proof (emin_le prec emax Hemax).
    unfold top_rank in H1. nia.
  - (* infinity, infinity *)
    apply (fle_bottom prec emax Hprec Hemax) with (rho := 0). reflexivity.
  - (* infinity, finite *)
    exfalso. apply (ranked_finite_range prec emax Hprec Hemax) in H2.
    cbn [ranked] in H1. lia.
  - (* finite, zero *)
    exfalso. apply (ranked_finite_range prec emax Hprec Hemax) in H1.
    cbn [ranked] in H2. lia.
  - (* finite, infinity *)
    destruct (SFdiv_ranked mc ec m1 e1) as [rho H]. cbn [SFdiv xorb] in H.
    exact (fle_bottom prec emax Hprec Hemax _ _ H).
  - (* finite, finite *)
    destruct (ranked_value_le prec emax Hprec Hemax m1 m2 e1 e2 rho1 rho2 H1 H2 Hle)
      as [A1 [A2 Hv]].
    apply (SFdiv_antitone_finite mc ec m1 e1 m2 e2).
    exists (emin prec emax). auto.
Qed.

(** Multiplying by a normal positive constant keeps the order. *)
Lemma SFmul_mono (mk : positive) (ek : Z) (y1 y2 : spec_float) :
  2 ^ (prec - 1) <= Zpos mk ->
  fle prec emax y1 y2 ->
  fle prec emax (SFmul prec emax y1 (S754_finite false mk ek))
                (SFmul prec emax y2 (S754_finite false mk ek)).
Proof.
  intros Hk [rho1 [rho2 [H1 [H2 Hle]]]].
  assert (Hpre : forall (m : positive) (e : Z),
             e + ek <= fexp prec emax (Zdigits2 (Zpos (m * mk)) + (e + ek))).
  { intros m e.
    assert (Hbig : 2 ^ (prec - 1) <= Zpos (m * mk))
      by (rewrite Pos2Z.inj_mul; nia).
    pose proof (Zdigits2_big _ prec Hbig Hprec). unfold fexp. lia. }
  assert (Hranked : forall (m : positive) (e : Z), exists rho,
             ranked prec emax
               (binary_round_aux prec emax false (Zpos (m * mk)) (e + ek) loc_Exact)
               rho).
  { intros m e. eexists.
    exact (binary_round_aux_ranked prec emax Hprec Hemax _ _ loc_Exact _ 1
             (inbetween_exact (Zpos (m * mk)) ltac:(lia)) (Hpre m e)). }
  destruct y1 as [[|] | [|] | | [|] m1 e1]; try contradiction;
    destruct y2 as [[|] | [|] | | [|] m2 e2]; try contradiction;
    cbn [SFmul xorb].
  - exists 0, 0. repeat split; lia.
  - apply (fle_bottom prec emax Hprec Hemax) with (rho := top_rank prec emax).
    cbn [ranked]. lia.
  - destruct (Hranked m2 e2) as [rho H].
    exact (fle_bottom prec emax Hprec Hemax _ _ H).
  - exfalso. cbn [ranked] in H1, H2.
    pose proof (half_pos prec Hprec). pose proof (emin_le prec emax Hemax).
    unfold top_rank in H1. nia.
  - apply (fle_top prec emax) with (rho := top_rank prec emax). cbn [ranked]. lia.
  - exfalso. apply (ranked_finite_range prec emax Hprec Hemax) in H2.
    cbn [ranked] in H1. lia.
  - exfalso. apply (ranked_finite_range prec emax Hprec Hemax) in H1.
    cbn [ranked] in H2. lia.
  - destruct (Hranked m1 e1) as [rho H]. exact (fle_top prec emax _ _ H).
  - destruct (ranked_value_le prec emax Hprec Hemax m1 m2 e1 e2 rho1 rho2 H1 H2 Hle)
      as [A1 [A2 Hv]].
    apply (binary_round_aux_mono prec emax Hprec Hemax
             _ _ loc_Exact _ 1 _ _ loc_Exact _ 1 (emin prec emax + ek)
             (inbetween_exact (Zpos (m1 * mk)) ltac:(lia)) (Hpre m1 e1)
             (inbetween_exact (Zpos (m2 * mk)) ltac:(lia)) (Hpre m2 e2));
      [lia | lia |].
    rewrite !Z.mul_1_r, !Pos2Z.inj_mul.
    replace (e1 + ek - (emin prec emax + ek)) with (e1 - emin prec emax) by lia.
    replace (e2 + ek - (emin prec emax + ek)) with (e2 - emin prec emax) by lia.
    replace (Zpos m1 * Zpos mk * 2 ^ (e1 - emin prec emax))
      with (Zpos m1 * 2 ^ (e1 - emin prec emax) * Zpos mk) by ring.
    replace (Zpos m2 * Zpos mk * 2 ^ (e2 - emin prec emax))
      with (Zpos m2 * 2 ^ (e2 - emin prec emax) * Zpos mk) by ring.
    apply Z.mul_le_mono_nonneg_r; [lia | exact Hv].
Qed.

End Arithmetic.

Lemma sim_platform_ieee : Sim.platform = ieee_double 53 1024.
Proof. reflexivity. Qed.

Lemma to_Q_num_den (s : bool) (m : positive) (e : Z) :
  Qnum (F32.to_Q (S754_finite s m e)) = F32.num s m e /\
  Zpos (Qden (F32.to_Q (S754_finite s m e))) = F32.den e.
Proof.
  unfold F32.num, F32.den.
  destruct e as [| p | p]; cbn [F32.to_Q inject_Z Qnum Qden].
  - split; reflexivity.
  - rewrite (Z.max_r 0 (Zpos p)), (Z.max_l 0 (- Zpos p)) by lia.
    split; reflexivity.
  - rewrite (Z.max_l 0 (Zneg p)), (Z.max_r 0 (- Zneg p)) by lia.
    change (2 ^ 0) with 1. rewrite Z.mul_1_r, Pos2Z.inj_pow.
    split; reflexivity.
Qed.

Lemma to_Q_vle (m1 : positive) (e1 : Z) (m2 : positive) (e2 : Z) :
  (F32.to_Q (S754_finite false m1 e1) <= F32.to_Q (S754_finite false m2 e2))%Q ->
  vle (Zpos m1) e1 (Zpos m2) e2.
Proof.
  unfold Qle.
  destruct (to_Q_num_den false m1 e1) as [-> ->].
  destruct (to_Q_num_den false m2 e2) as [-> ->].
  unfold F32.num, F32.den. cbn [cond_Zopp]. intros H.
  exists (- (Z.max 0 (- e1) + Z.max 0 (- e2))).
  split; [lia |]. split; [lia |].
  replace (e1 - - (Z.max 0 (- e1) + Z.max 0 (- e2)))
    with (Z.max 0 e1 + Z.max 0 (- e2)) by lia.
  replace (e2 - - (Z.max 0 (- e1) + Z.max 0 (- e2)))
    with (Z.max 0 e2 + Z.max 0 (- e1)) by lia.
  rewrite !Z.pow_add_r by lia. lia.
Qed.

Section Conversion.

Variables prec emax : Z.
Hypothesis Hprec : 1 <= prec.
Hypothesis Hemax : 2 <= emax.

Lemma convert_mono_values (m1 : positive) (e1 : Z) (m2 : positive) (e2 : Z) :
  vle (Zpos m1) e1 (Zpos m2) e2 ->
  fle prec emax (convert prec emax (S754_finite false m1 e1))
                (convert prec emax (S754_finite false m2 e2)).
Proof.
  intros Hv. cbn [convert cond_Zopp binary_normalize].
  apply binary_round_mono; assumption.
Qed.

(** Conversion from a format [precS], [emaxS] keeps the order. *)
Lemma convert_mono (precS emaxS : Z) (y1 y2 : spec_float) :
  1 <= precS -> 2 <= emaxS ->
  fle precS emaxS y1 y2 ->
  fle prec emax (convert prec emax y1) (convert prec emax y2).
Proof.
  intros HpS HeS [rho1 [rho2 [H1 [H2 Hle]]]].
  destruct y1 as [[|] | [|] | | [|] m1 e1]; try contradiction;
    destruct y2 as [[|] | [|] | | [|] m2 e2]; try contradiction;
    cbn [convert cond_Zopp binary_normalize].
  - exists 0, 0. repeat split; lia.
  - apply (fle_bottom prec emax Hprec Hemax) with (rho := top_rank prec emax).
    cbn [ranked]. lia.
  - destruct (binary_round_ranked prec emax Hprec Hemax m2 e2) as [rho H].
    exact (fle_bottom prec emax Hprec Hemax _ _ H).
  - exfalso. cbn [ranked] in H1, H2.
    pose proof (half_pos precS HpS). pose proof (emin_le precS emaxS HeS).
    unfold top_rank in H1. nia.
  - apply (fle_top prec emax) with (rho := top_rank prec emax). cbn [ranked]. lia.
  - exfalso. apply (ranked_finite_range precS emaxS HpS HeS) in H2.
    cbn [ranked] in H1. lia.
  - exfalso. apply (ranked_finite_range precS emaxS HpS HeS) in H1.
    cbn [ranked] in H2. lia.
  - destruct (binary_round_ranked prec emax Hprec Hemax m1 e1) as [rho H].
    exact (fle_top prec emax _ _ H).
  - destruct (ranked_value_le precS emaxS HpS HeS m1 m2 e1 e2 rho1 rho2 H1 H2 Hle)
      as [A1 [A2 Hv]].
    apply binary_round_mono; try assumption.
    exists (emin precS emaxS). auto.
Qed.

End Conversion.

Lemma double_format_bounds (prec emax : Z) :
  double_format prec emax -> 1 <= prec /\ 2 <= emax.
Proof. intros [[-> ->] | [-> ->]]; lia. Qed.

Lemma literals_finite (prec emax : Z) :
  double_format prec emax ->
  (exists m e, double_lit (ieee_double prec emax) 15625 (-10)
               = S754_finite false m e) /\
  (exists m e, double_lit (ieee_double prec emax) 50 (-7)
               = S754_finite false m e) /\
  (exists m e, double_of_int (ieee_double prec emax) 1000
               = S754_finite false m e /\ 2 ^ (prec - 1) <= Zpos m).
Proof.
  intros [[-> ->] | [-> ->]]; (split; [| split]); vm_compute;
    try (eexists _, _; reflexivity);
    (eexists _, _; split; [reflexivity | discriminate]).
Qed.

Lemma capacity_per_LSB_mono (prec emax : Z) (r1 r2 : float) :
  double_format prec emax ->
  positive_finite r1 -> positive_finite r2 ->
  (F32.to_Q r1 <= F32.to_Q r2)%Q ->
  fle 24 128 (capacity_per_LSB (ieee_double prec emax) r2)
             (capacity_per_LSB (ieee_double prec emax) r1).
Proof.
  intros Hfmt Hr1 Hr2 Hle.
  destruct (double_format_bounds prec emax Hfmt) as [Hp He].
  destruct (literals_finite prec emax Hfmt) as [_ [[mc [ec Hc]] _]].
  destruct r1 as [| | | [|] m1 e1]; try contradiction.
  destruct r2 as [| | | [|] m2 e2]; try contradiction.
  apply to_Q_vle in Hle.
  unfold capacity_per_LSB. rewrite Hc.
  change (float_of_double (ieee_double prec emax)) with (convert 24 128).
  change (ddiv (ieee_double prec emax)) with (SFdiv prec emax).
  change (double_of_float (ieee_double prec emax)) with (convert prec emax).
  apply (convert_mono 24 128 ltac:(lia) ltac:(lia) prec emax _ _ Hp He).
  apply (SFdiv_antitone prec emax Hp He).
  apply (convert_mono_values prec emax Hp He). exact Hle.
Qed.

Lemma current_per_LSB_mono (prec emax : Z) (r1 r2 : float) :
  double_format prec emax ->
  positive_finite r1 -> positive_finite r2 ->
  (F32.to_Q r1 <= F32.to_Q r2)%Q ->
  fle 24 128 (current_per_LSB (ieee_double prec emax) r2)
             (current_per_LSB (ieee_double prec emax) r1).
Proof.
  intros Hfmt Hr1 Hr2 Hle.
  destruct (double_format_bounds prec emax Hfmt) as [Hp He].
  destruct (literals_finite prec emax Hfmt)
    as [[mc [ec Hc]] [_ [mk [ek [Hk Hnormal]]]]].
  destruct r1 as [| | | [|] m1 e1]; try contradiction.
  destruct r2 as [| | | [|] m2 e2]; try contradiction.
  apply to_Q_vle in Hle.
  unfold current_per_LSB. rewrite Hc, Hk.
  change (float_of_double (ieee_double prec emax)) with (convert 24 128).
  change (ddiv (ieee_double prec emax)) with (SFdiv prec emax).
  change (dmul (ieee_double prec emax)) with (SFmul prec emax).
  change (double_of_float (ieee_double prec emax)) with (convert prec emax).
  apply (convert_mono 24 128 ltac:(lia) ltac:(lia) prec emax _ _ Hp He).
  apply (SFmul_mono prec emax Hp He mk ek _ _ Hnormal).
  apply (SFdiv_antitone prec emax Hp He).
  apply (convert_mono_values prec emax Hp He). exact Hle.
Qed.

(** C7, as the code has it.  [calcMultipliers] touches neither the bus
    nor any other member: it stores, rounded to [float], the [double]
    values of 1.5625e-6 / rSense * 1000 and of 5.0e-6 / rSense.  On a
    target whose [double] is IEEE binary32 or binary64, of two sense
    resistances above zero the larger never gets the larger multiplier:
    both multipliers decrease weakly as the resistance increases (they
    do not decrease strictly, neighbouring resistances can share a
    multiplier). *)
Theorem calcMultipliers_weakly_decreasing :
  (forall (B : Board) (P : Platform) (r : float) (s : Sys B),
      calcMultipliers B P r s
      = (tt, {| obj := set_multipliers
                         (float_of_double P
                            (dmul P (ddiv P (double_lit P 15625 (-10))
                                            (double_of_float P r))
                                    (double_of_int P 1000)))
                         (float_of_double P
                            (ddiv P (double_lit P 50 (-7))
                                    (double_of_float P r)))
                         (obj s);
                board := board s; log := log s |})) /\
  (forall (B : Board) (prec emax : Z) (r1 r2 : float) (s1 s2 : Sys B),
      double_format prec emax ->
      positive_finite r1 -> positive_finite r2 ->
      (F32.to_Q r1 <= F32.to_Q r2)%Q ->
      let d1 := obj (snd (calcMultipliers B (ieee_double prec emax) r1 s1)) in
      let d2 := obj (snd (calcMultipliers B (ieee_double prec emax) r2 s2)) in
      SFleb (current_multiplier_mV d2) (current_multiplier_mV d1) = true /\
      SFleb (capacity_multiplier_mAH d2) (capacity_multiplier_mAH d1) = true).
Proof.
  split.
  - intros B P r s. reflexivity.
  - intros B prec emax r1 r2 s1 s2 Hfmt Hr1 Hr2 Hle d1 d2.
    unfold d1, d2, calcMultipliers, assign.
    cbn [snd obj current_multiplier_mV capacity_multiplier_mAH set_multipliers].
    split; apply (fle_SFleb 24 128 ltac:(lia) ltac:(lia)).
    + apply current_per_LSB_mono; assumption.
    + apply capacity_per_LSB_mono; assumption.
Qed.

(** 10 mOhm against 20 mOhm on the simulated 64-bit target. *)
Lemma calcMultipliers_weakly_decreasing_witness :
  let r1 := F32.div (F32.of_int 1) (F32.of_int 100) in
  let r2 := F32.div (F32.of_int 2) (F32.of_int 100) in
  let s := Sim.power_up true 0 [] 0 in
  let d1 := obj (snd (calcMultipliers (Sim.sim_board true) Sim.platform r1 s)) in
  let d2 := obj (snd (calcMultipliers (Sim.sim_board true) Sim.platform r2 s)) in
  SFleb (current_multiplier_mV d2) (current_multiplier_mV d1) = true /\
  SFleb (capacity_multiplier_mAH d2) (capacity_multiplier_mAH d1) = true.
Proof.
  intros r1 r2 s.
  apply (proj2 calcMultipliers_weakly_decreasing (Sim.sim_board true) 53 1024
           r1 r2 s s).
  - right. split; reflexivity.
  - vm_compute. exact I.
  - vm_compute. exact I.
  - vm_compute. discriminate.
Defined.

(** C7 as the spec has it fails: on the 64-bit target the resistances
    16777213 * 2^-22 and 16777214 * 2^-22 (about 4 Ohm) get the same
    capacity multiplier, and 16777214 * 2^-22 and 16777215 * 2^-22 the
    same current multiplier. *)
Lemma calcMultipliers_not_strictly_decreasing :
  let ra := S754_finite false 16777213 (-22) in
  let rb := S754_finite false 16777214 (-22) in
  let rc := S754_finite false 16777215 (-22) in
  let s := Sim.power_up true 0 [] 0 in
  let multipliers_for r :=
    multipliers (obj (snd (calcMultipliers (Sim.sim_board true) Sim.platform r s))) in
  (valid_binary 24 128 ra && valid_binary 24 128 rb && valid_binary 24 128 rc
   && SFltb (S754_zero false) ra && SFltb ra rb && SFltb rb rc = true)%bool /\
  snd (multipliers_for ra) = snd (multipliers_for rb) /\
  fst (multipliers_for rb) = fst (multipliers_for rc).
Proof. vm_compute. repeat split. Qed.
